(** * gmon: call-graph profile capture (lib/libc/gmon/gmon.c) and its
      reconstruction from a ktrace stream (usr.bin/gprof/extract.c)

    A shallow embedding of [monstartup], [moncontrol], [_mcleanup],
    [gmon_append] and [ktrace_extract], with the libc routines they call
    ([snprintf], [sscanf], [strsep], [utrace], [fwrite]) given as small
    executable models. *)

From Stdlib Require Import ZArith Ascii String List Bool Lia SpecFloat.
Import ListNotations.
Local Open Scope Z_scope.

(** ** C integer types (LP64) *)

Module C.
(** [u_long], [size_t], [uintmax_t]: 64 bits. *)
Definition u_long (x : Z) : Z := x mod 2 ^ 64.
(** [unsigned int]: 32 bits. *)
Definition u_int (x : Z) : Z := x mod 2 ^ 32.
(** [u_short], [uint16_t], [HISTCOUNTER]: 16 bits. *)
Definition u_short (x : Z) : Z := x mod 2 ^ 16.
(** [int]: 32 bits, two's complement; conversion of an out-of-range value
    wraps, as every compiler used for this code does. *)
Definition int (x : Z) : Z := (x + 2 ^ 31) mod 2 ^ 32 - 2 ^ 31.
(** [long]: 64 bits, two's complement. *)
Definition long (x : Z) : Z := (x + 2 ^ 63) mod 2 ^ 64 - 2 ^ 63.

Definition INT_MIN : Z := - 2 ^ 31.
Definition INT_MAX : Z := 2 ^ 31 - 1.
Definition ULONG_MAX : Z := 2 ^ 64 - 1.

Definition in_int (x : Z) : bool := (INT_MIN <=? x) && (x <=? INT_MAX).
End C.

(** ** C strings *)

(** A C string is the list of its characters before the terminating NUL. *)
Definition cstring := list ascii.

Definition lit (s : string) : cstring := list_ascii_of_string s.
Arguments lit s%_string.

(** The part of a buffer that the string functions see. *)
Fixpoint c_str (buf : list ascii) : cstring :=
  match buf with
  | [] => []
  | c :: r => if Ascii.eqb c zero then [] else c :: c_str r
  end.

Definition code (c : ascii) : Z := Z.of_N (N_of_ascii c).

(** The value of a [char] object: [char] is signed on the LP64 targets. *)
Definition char_val (c : ascii) : Z :=
  if code c <? 128 then code c else code c - 256.

Definition strlen (s : cstring) : Z := Z.of_nat (length s).

Fixpoint cstring_eqb (a b : cstring) : bool :=
  match a, b with
  | [], [] => true
  | x :: a', y :: b' => Ascii.eqb x y && cstring_eqb a' b'
  | _, _ => false
  end.

(** [strcmp(a, b) == 0] *)
Definition strcmp0 (a b : cstring) : bool := cstring_eqb a b.

(** [strsep(&s, " ")]: the token before the first space, and the new value
    of [s] ([None] is the null pointer). *)
Fixpoint strsep_sp (s : cstring) : cstring * option cstring :=
  match s with
  | [] => ([], None)
  | c :: r =>
      if Ascii.eqb c " " then ([], Some r)
      else let '(tok, rest) := strsep_sp r in (c :: tok, rest)
  end.

(** The tokens that successive calls [strsep(&s, " ")] return until [s]
    becomes null. *)
Fixpoint strsep_all (cur : cstring) (s : cstring) : list cstring :=
  match s with
  | [] => [rev cur]
  | c :: r =>
      if Ascii.eqb c " " then rev cur :: strsep_all [] r
      else strsep_all (c :: cur) r
  end.

Definition isspace (c : ascii) : bool :=
  (code c =? 32) || ((9 <=? code c) && (code c <=? 13)).

Fixpoint skip_space (s : cstring) : cstring :=
  match s with
  | [] => []
  | c :: r => if isspace c then skip_space r else s
  end.

Fixpoint strip_prefix (p s : cstring) : option cstring :=
  match p, s with
  | [], _ => Some s
  | x :: p', y :: s' => if Ascii.eqb x y then strip_prefix p' s' else None
  | _ :: _, [] => None
  end.

(** ** Hexadecimal conversions of printf(3) and scanf(3) *)

Definition hexchar (d : Z) : ascii :=
  nth (Z.to_nat d) (lit "0123456789abcdef") "0"%char.

(** Digits are produced from the least significant one, as printf does;
    [n] bounds the number of digits of the type printed. *)
Fixpoint hex_digits (n : nat) (v : Z) (acc : cstring) : cstring :=
  match n with
  | O => acc
  | S n' =>
      let acc' := hexchar (v mod 16) :: acc in
      if v / 16 =? 0 then acc' else hex_digits n' (v / 16) acc'
  end.

Definition zero_pad (width : nat) (s : cstring) : cstring :=
  repeat "0"%char (width - length s) ++ s.

(** The digit value of a character accepted by a [%x] conversion. *)
Definition xdigit (c : ascii) : option Z :=
  let n := code c in
  if (48 <=? n) && (n <=? 57) then Some (n - 48)
  else if (97 <=? n) && (n <=? 102) then Some (n - 87)
  else if (65 <=? n) && (n <=? 70) then Some (n - 55)
  else None.

Fixpoint span_xdigits (s : cstring) : list Z * cstring :=
  match s with
  | [] => ([], [])
  | c :: r =>
      match xdigit c with
      | Some d => let '(ds, rest) := span_xdigits r in (d :: ds, rest)
      | None => ([], s)
      end
  end.

(** strtoumax(3) in base 16 on the collected digits: the value saturates at
    [UINTMAX_MAX]. *)
Definition strtoumax16 (ds : list Z) : Z :=
  Z.min (fold_left (fun a d => a * 16 + d) ds 0) C.ULONG_MAX.

(** The integer conversion of scanf in base 16: an optional sign, an
    optional [0x] before a digit, then the longest run of hexadecimal
    digits.  [None] is a matching failure.  The caller has skipped white
    space. *)
Definition scan_hex (s : cstring) : option (Z * cstring) :=
  let '(neg, s1) :=
    match s with
    | c :: r =>
        if Ascii.eqb c "-" then (true, r)
        else if Ascii.eqb c "+" then (false, r) else (false, s)
    | [] => (false, s)
    end in
  let s2 :=
    match s1 with
    | z :: x :: d :: r =>
        if Ascii.eqb z "0" && (Ascii.eqb x "x" || Ascii.eqb x "X")
           && match xdigit d with Some _ => true | None => false end
        then d :: r else s1
    | _ => s1
    end in
  match span_xdigits s2 with
  | ([], _) => None
  | (ds, rest) =>
      let v := strtoumax16 ds in
      Some (if neg then C.u_long (- v) else v, rest)
  end.

(** The conversion specifications the two programs use. *)
Inductive conv := Conv_lx | Conv_x | Conv_04hx.

Inductive directive :=
| Dchar (c : ascii)
| Dconv (k : conv).

Fixpoint parse_format_n (n : nat) (fmt : cstring) : list directive :=
  match n with
  | O => []
  | S n' =>
      match fmt with
      | [] => []
      | c :: r =>
          match strip_prefix (lit "%lx") fmt with
          | Some r' => Dconv Conv_lx :: parse_format_n n' r'
          | None =>
          match strip_prefix (lit "%x") fmt with
          | Some r' => Dconv Conv_x :: parse_format_n n' r'
          | None =>
          match strip_prefix (lit "%04hx") fmt with
          | Some r' => Dconv Conv_04hx :: parse_format_n n' r'
          | None => Dchar c :: parse_format_n n' r
          end end end
      end
  end.

Definition parse_format (fmt : string) : list directive :=
  parse_format_n (String.length fmt) (lit fmt).

(** How printf renders one argument. [%lx] takes an unsigned long, [%x] an
    unsigned int, [%04hx] an unsigned short padded with zeros to four
    digits. *)
Definition print_conv (k : conv) (v : Z) : cstring :=
  match k with
  | Conv_lx => hex_digits 16 (C.u_long v) []
  | Conv_x => hex_digits 8 (C.u_int v) []
  | Conv_04hx => zero_pad 4 (hex_digits 4 (C.u_short v) [])
  end.

Fixpoint print_directives (ds : list directive) (args : list Z) : cstring :=
  match ds with
  | [] => []
  | Dchar c :: ds' => c :: print_directives ds' args
  | Dconv k :: ds' =>
      match args with
      | v :: args' => print_conv k v ++ print_directives ds' args'
      | [] => []
      end
  end.

(** The string [snprintf(buf, size, fmt, ...)] would produce with an
    unbounded buffer; its length is snprintf's return value. *)
Definition sprintf (fmt : string) (args : list Z) : cstring :=
  print_directives (parse_format fmt) args.

(** What [buf] holds after [snprintf(buf, size, fmt, ...)]: at most
    [size - 1] characters. *)
Definition snprintf (size : Z) (fmt : string) (args : list Z)
  : cstring * Z :=
  let s := sprintf fmt args in
  (firstn (Z.to_nat (size - 1)) s, strlen s).

(** The object a scanf conversion stores. *)
Definition store_conv (k : conv) (v : Z) : Z :=
  match k with
  | Conv_lx => v
  | Conv_x => C.u_int v
  | Conv_04hx => C.u_short v
  end.

(** The values assigned by [sscanf], in order; scanning stops at the first
    directive that fails.  White space in the format matches any amount of
    white space, other characters match themselves, a conversion skips
    white space first. *)
Fixpoint scan_directives (ds : list directive) (inp : cstring) : list Z :=
  match ds with
  | [] => []
  | Dchar c :: ds' =>
      if isspace c then scan_directives ds' (skip_space inp)
      else
        match inp with
        | i :: r => if Ascii.eqb i c then scan_directives ds' r else []
        | [] => []
        end
  | Dconv k :: ds' =>
      match scan_hex (skip_space inp) with
      | Some (v, r) => store_conv k v :: scan_directives ds' r
      | None => []
      end
  end.

(** [sscanf(inp, fmt, ...)]: the list of assigned values; its length is the
    return value when at least one conversion was made (and [EOF] or 0,
    both different from the counts the callers test for, otherwise). *)
Definition sscanf (inp : cstring) (fmt : string) : list Z :=
  scan_directives (parse_format fmt) inp.

(** ** Build constants

    [<sys/gmon.h>] and [<sys/ktrace.h>] are not among the files studied, so
    the macros and sizes that the two programs take from them are
    parameters of the development. *)

Class Abi := {
  HISTFRACTION : Z;       (* text bytes per byte of histogram *)
  HASHFRACTION : Z;       (* text bytes per byte of from-table *)
  ARCDENSITY : Z;         (* percentage of arcs per text byte *)
  MINARCS : Z;
  MAXARCS : Z;
  GMONVERSION : Z;
  sizeof_gmonhdr : Z;     (* sizeof(struct gmonhdr) *)
  sizeof_tostruct : Z;    (* sizeof(struct tostruct) *)
  KTR_USER_MAXLEN : Z     (* longest utrace(2) record *)
}.

(** The values of OpenBSD on its 64-bit platforms. *)
Definition openbsd_lp64 : Abi := {|
  HISTFRACTION := 2;
  HASHFRACTION := 2;
  ARCDENSITY := 2;
  MINARCS := 50;
  MAXARCS := 65534;
  GMONVERSION := 0x51879;
  sizeof_gmonhdr := 40;
  sizeof_tostruct := 24;
  KTR_USER_MAXLEN := 2048
|}.

(** [sizeof(HISTCOUNTER)], [sizeof( *p->kcount)] and [sizeof( *p->froms)]:
    [_mcleanup] asserts that a histogram counter has two bytes; the
    from-table holds [u_short] indices into the arc pool. *)
Definition sizeof_HISTCOUNTER : Z := 2.
Definition sizeof_kcount : Z := 2.
Definition sizeof_froms : Z := 2.

(** ** The gmon.out objects *)

(** Modelled from the spec: [struct gmonhdr], whose declaration is in
    [<sys/gmon.h>]: two 64-bit bounds and three 32-bit fields (the spare
    words, which both programs leave zero, are not represented). *)
Record gmonhdr := {
  lpc : Z;
  hpc : Z;
  ncnt : Z;
  version : Z;
  profrate : Z
}.

(** Modelled from the spec: [struct rawarc], three 64-bit fields, the count
    being a [long]. *)
Record rawarc := {
  raw_frompc : Z;
  raw_selfpc : Z;
  raw_count : Z
}.

(** What one [fwrite] call of [gmon_append] puts in the output file. *)
Inductive object :=
| Ohdr (h : gmonhdr)
| Osample (s : Z)
| Oarc (a : rawarc).

(** A stdio stream open for writing: the objects written so far, and how
    many more writes the device will take before [fwrite] fails. *)
Record FILE := {
  contents : list object;
  space : N
}.

(** [fwrite(&o, sizeof o, 1, fp)]: the stream afterwards and the number of
    items written. *)
Definition fwrite (o : object) (fp : FILE) : FILE * Z :=
  match space fp with
  | N0 => (fp, 0)
  | n => ({| contents := contents fp ++ [o]; space := N.pred n |}, 1)
  end.

(** ** usr.bin/gprof/extract.c *)

Inductive gmon_state := HEADER | KCOUNT | RAWARC | FOOTER | ERROR.

Definition gmon_state_eqb (a b : gmon_state) : bool :=
  match a, b with
  | HEADER, HEADER | KCOUNT, KCOUNT | RAWARC, RAWARC
  | FOOTER, FOOTER | ERROR, ERROR => true
  | _, _ => false
  end.

Record gmon_de := {
  sample_count : Z;       (* kcount array: current sample count *)
  sample_total : Z;       (* kcount array: total samples in array *)
  state : gmon_state      (* gmon.out deserialization step *)
}.

(** The diagnostics written to stderr. *)
Inductive diag :=
| de_warnx_gmonhdr (trace : cstring)
| de_warnx_ncnt (n : Z)
| de_warnx_kcount (p : cstring)
| de_warnx_sample (count total : Z) (p : cstring)
| de_warnx_more_samples (total : Z)
| de_warnx_rawarc (trace : cstring)
| warn_temp_path
| warn_ktrace_path
| warn_mkstemp
| warn_unlink
| warnx_not_ktrace
| warnx_no_record_set
| warnx_incomplete_record_set.

(** What [gmon_append] reads and updates through its pointer arguments,
    together with stderr. *)
Record de_io := {
  fp : FILE;
  de : gmon_de;
  stderr : list diag
}.

Definition set_state (st : gmon_state) (x : de_io) : de_io :=
  {| fp := fp x;
     de := {| sample_count := sample_count (de x);
              sample_total := sample_total (de x);
              state := st |};
     stderr := stderr x |}.

Definition say (d : diag) (x : de_io) : de_io :=
  {| fp := fp x; de := de x; stderr := stderr x ++ [d] |}.

(** The exit through the label [error]. *)
Definition goto_error (x : de_io) : de_io := set_state ERROR x.

(** The inner loop of the KCOUNT case: [sample] after the digits of [p], or
    the rest of [p] from the first character outside ['0'..'f']. *)
Fixpoint sample_of_field (p : cstring) (sample : Z) : Z + cstring :=
  match p with
  | [] => inl sample
  | c :: r =>
      if (char_val c <? char_val "0") || (char_val "f" <? char_val c)
      then inr p
      else sample_of_field r
             (C.u_short (sample * 16 + (char_val c - char_val "0")))
  end.

(** The [while ((p = strsep(&trace, " ")) != NULL)] loop; [fields] are the
    tokens still to come. *)
Fixpoint kcount_fields (fields : list cstring) (x : de_io) : de_io :=
  match fields with
  | [] =>
      if sample_count (de x) =? sample_total (de x)
      then set_state RAWARC x else x
  | p :: rest =>
      if negb (strlen p =? 4) then
        goto_error
          (say (de_warnx_sample (sample_count (de x)) (sample_total (de x)) p)
               x)
      else if sample_count (de x) =? sample_total (de x) then
        goto_error (say (de_warnx_more_samples (sample_total (de x))) x)
      else
        match sample_of_field p 0 with
        | inr bad =>
            goto_error
              (say (de_warnx_sample (sample_count (de x))
                      (sample_total (de x)) bad) x)
        | inl sample =>
            let '(fp', n) := fwrite (Osample sample) (fp x) in
            if negb (n =? 1) then
              goto_error
                (say warn_temp_path
                   {| fp := fp'; de := de x; stderr := stderr x |})
            else
              kcount_fields rest
                {| fp := fp';
                   de := {| sample_count := C.u_long (sample_count (de x) + 1);
                            sample_total := sample_total (de x);
                            state := state (de x) |};
                   stderr := stderr x |}
        end
  end.

(** The cursor [{ .state = HEADER }] and the empty temporary file with which
    [ktrace_extract] starts. *)
Definition start_io (sp : N) : de_io :=
  {| fp := {| contents := []; space := sp |};
     de := {| sample_count := 0; sample_total := 0; state := HEADER |};
     stderr := [] |}.

Section Extract.
Context {abi : Abi}.

(** [gmon_append(fp, path, de, ktrace_path, trace)]; [None] is a call to
    [abort()]. *)
Definition gmon_append (x : de_io) (trace : cstring) : option de_io :=
  match state (de x) with
  | HEADER =>
      match sscanf trace "gmonhdr %lx %lx %x %x %x" with
      | [l; h; n; v; r] =>
          let header :=
            {| lpc := l; hpc := h; ncnt := n; version := v;
               profrate := r |} in
          if ncnt header <? sizeof_gmonhdr then
            Some (goto_error (say (de_warnx_ncnt (ncnt header)) x))
          else
            let '(fp', w) := fwrite (Ohdr header) (fp x) in
            if negb (w =? 1) then
              Some (goto_error
                      (say warn_temp_path
                         {| fp := fp'; de := de x; stderr := stderr x |}))
            else
              Some {| fp := fp';
                      de := {| sample_count := 0;
                               sample_total :=
                                 C.u_long (ncnt header - sizeof_gmonhdr) / 2;
                               state := KCOUNT |};
                      stderr := stderr x |}
      | _ => Some (goto_error (say (de_warnx_gmonhdr trace) x))
      end
  | KCOUNT =>
      match strsep_all [] trace with
      | p :: fields =>
          if negb (strcmp0 p (lit "kcount")) then
            Some (goto_error (say (de_warnx_kcount p) x))
          else Some (kcount_fields fields x)
      | [] => Some (goto_error (say (de_warnx_kcount trace) x))
      end
  | RAWARC =>
      if strcmp0 trace (lit "footer") then Some (set_state FOOTER x)
      else
        match sscanf trace "rawarc %lx %lx %lx" with
        | [f; s; c] =>
            let arc :=
              {| raw_frompc := f; raw_selfpc := s;
                 raw_count := C.long c |} in
            let '(fp', w) := fwrite (Oarc arc) (fp x) in
            if negb (w =? 1) then
              Some (goto_error
                      (say warn_temp_path
                         {| fp := fp'; de := de x; stderr := stderr x |}))
            else Some {| fp := fp'; de := de x; stderr := stderr x |}
        | _ => Some (goto_error (say (de_warnx_rawarc trace) x))
        end
  | FOOTER | ERROR => None
  end.

(** *** The ktrace(1) file *)

Inductive ktr_type := KTR_START | KTR_USER | KTR_OTHER (n : Z).

Record ktr_header := {
  ktr_type_of : ktr_type;
  ktr_pid : Z
}.

(** One record as [ktrace_next] returns it: the header and, for a
    [KTR_USER] record, the label [ktr_id] and the user data. *)
Record ktr_record := {
  ktr_hdr : ktr_header;
  ktr_id : list ascii;
  ktr_buf : list ascii
}.

(** The input stream [kfp]: the leading header (if one can be read), the
    records that [ktrace_next] returns until it fails, and whether that
    failure was a read error rather than the end of the file. *)
Record ktrace_file := {
  kf_start : option ktr_header;
  kf_records : list ktr_record;
  kf_ferror : bool
}.

(** The calls whose failure [ktrace_extract] handles. *)
Record host := {
  mkstemp_ok : bool;
  unlink_ok : bool;
  fdopen_ok : bool;
  fflush_ok : bool;
  fseek_ok : bool;
  disk_space : N
}.

Definition GMON_LABEL : cstring := lit "_openbsd_libc_gmon".
Definition GMON_LABEL_LEN : nat := length GMON_LABEL.

(** [memcmp(label, GMON_LABEL, GMON_LABEL_LEN) != 0] *)
Definition label_differs (label : list ascii) : bool :=
  negb (cstring_eqb (firstn GMON_LABEL_LEN label) GMON_LABEL).

Definition is_ktr_user (t : ktr_type) : bool :=
  match t with KTR_USER => true | _ => false end.

Definition is_ktr_start (t : ktr_type) : bool :=
  match t with KTR_START => true | _ => false end.

(** The [while (ktrace_next(...) != -1)] loop. [pid] is [Some] once
    [have_pid] is set. *)
Fixpoint extract_loop (target_pid : Z) (recs : list ktr_record)
    (pid : option Z) (x : de_io) : option de_io :=
  match recs with
  | [] => Some x
  | r :: rest =>
      if negb (is_ktr_user (ktr_type_of (ktr_hdr r))) then
        extract_loop target_pid rest pid x
      else if label_differs (ktr_id r) then
        extract_loop target_pid rest pid x
      else
        let this := ktr_pid (ktr_hdr r) in
        let skip_first :=
          match pid with
          | None => negb (target_pid =? -1) && negb (this =? target_pid)
          | Some _ => false
          end in
        if skip_first then extract_loop target_pid rest pid x
        else
          let pid' := match pid with None => this | Some q => q end in
          if negb (pid' =? this) then
            extract_loop target_pid rest (Some pid') x
          else
            match gmon_append x (c_str (ktr_buf r)) with
            | None => None
            | Some x' =>
                match state (de x') with
                | FOOTER | ERROR => Some x'
                | _ => extract_loop target_pid rest (Some pid') x'
                end
            end
  end.

(** The result of [ktrace_extract]: the stream returned ([None] is
    [NULL]) and what was written to stderr. *)
Record extracted := {
  returned : option FILE;
  messages : list diag
}.

Definition failed (msgs : list diag) : extracted :=
  {| returned := None; messages := msgs |}.

(** [ktrace_extract(kfp, ktrace_path)]; the outer [None] is [abort()]. *)
Definition ktrace_extract (os : host) (target_pid : Z) (kfp : ktrace_file)
  : option extracted :=
  if negb (mkstemp_ok os) then Some (failed [warn_mkstemp])
  else if negb (unlink_ok os) then Some (failed [warn_unlink])
  else if negb (fdopen_ok os) then Some (failed [warn_temp_path])
  else
    match kf_start kfp with
    | None => Some (failed [warn_ktrace_path])
    | Some header =>
        if negb (is_ktr_start (ktr_type_of header)) then
          Some (failed [warnx_not_ktrace])
        else
          match extract_loop target_pid (kf_records kfp) None
                  (start_io (disk_space os)) with
          | None => None
          | Some x =>
              if kf_ferror kfp then
                Some (failed (stderr x ++ [warn_ktrace_path]))
              else
                match state (de x) with
                | ERROR => Some (failed (stderr x))
                | HEADER =>
                    Some (failed (stderr x ++ [warnx_no_record_set]))
                | FOOTER =>
                    if negb (fflush_ok os) then
                      Some (failed (stderr x ++ [warn_temp_path]))
                    else if negb (fseek_ok os) then
                      Some (failed (stderr x ++ [warn_temp_path]))
                    else
                      Some {| returned := Some (fp x);
                              messages := stderr x |}
                | _ =>
                    Some (failed
                            (stderr x ++ [warnx_incomplete_record_set]))
                end
          end
    end.
End Extract.

(** ** Single-precision arithmetic

    [float] is IEEE 754 binary32 with round-to-nearest-even, given by the
    specification of floating-point numbers of the standard library at
    precision 24. *)

Module Float32.
Definition prec : Z := 24.
Definition emax : Z := 128.

Definition float := spec_float.

(** Conversion of an integer to [float]. *)
Definition of_Z (n : Z) : float := binary_normalize prec emax n 0 false.

Definition div (x y : float) : float := SFdiv prec emax x y.
Definition mul (x y : float) : float := SFmul prec emax x y.

(** The integral part, towards zero. *)
Definition trunc (x : float) : option Z :=
  match x with
  | S754_zero _ => Some 0
  | S754_finite s m e =>
      Some (cond_Zopp s
              match e with
              | Z0 => Zpos m
              | Zpos p => Zpos m * 2 ^ Zpos p
              | Zneg p => Zpos m / 2 ^ Zpos p
              end)
  | _ => None
  end.

(** Conversion to [int]: undefined when the integral part does not fit. *)
Definition to_int (x : float) : option Z :=
  match trunc x with
  | Some z => if C.in_int z then Some z else None
  | None => None
  end.
End Float32.

(** ** lib/libc/gmon/gmon.c *)

(** How a call ends: it returns, it stops in [abort()] (a failed
    [assert]), its behaviour is undefined, or the model ran out of [fuel]
    in a loop that has no bound in the source. *)
Inductive outcome (A : Type) :=
| Done (a : A)
| Aborted
| Undefined
| OutOfFuel.
Arguments Done {A} a.
Arguments Aborted {A}.
Arguments Undefined {A}.
Arguments OutOfFuel {A}.

Definition bind {A B} (m : outcome A) (k : A -> outcome B) : outcome B :=
  match m with
  | Done a => k a
  | Aborted => Aborted
  | Undefined => Undefined
  | OutOfFuel => OutOfFuel
  end.

Notation "x <- m ;; k" := (bind m (fun x => k))
  (at level 61, m at next level, right associativity).

Definition assert (b : bool) : outcome unit :=
  if b then Done tt else Aborted.

(** A value that is defined only when [o] is. *)
Definition defined {A} (o : option A) : outcome A :=
  match o with Some a => Done a | None => Undefined end.

(** Division of unsigned operands; by zero it is undefined. *)
Definition udiv (a b : Z) : option Z :=
  if b =? 0 then None else Some (a / b).

Inductive prof_state :=
| GMON_PROF_ON | GMON_PROF_BUSY | GMON_PROF_ERROR | GMON_PROF_OFF.

(** Modelled from the spec: [struct tostruct], one arc of the pool: the
    callee, the hit count and the index of the next arc of the chain. *)
Record tostruct := {
  selfpc : Z;
  count : Z;
  link : Z
}.

(** Modelled from the spec: [struct gmonparam].  The three regions are
    given by their contents at each index; their sizes in bytes are the
    [size] fields. *)
Record gmonparam := {
  gstate : prof_state;
  kcount : Z -> Z;
  kcountsize : Z;
  froms : Z -> Z;
  fromssize : Z;
  tos : Z -> tostruct;
  tossize : Z;
  tolimit : Z;
  lowpc : Z;
  highpc : Z;
  textsize : Z;
  hashfraction : Z
}.

Definition set_gstate (st : prof_state) (p : gmonparam) : gmonparam :=
  {| gstate := st; kcount := kcount p; kcountsize := kcountsize p;
     froms := froms p; fromssize := fromssize p; tos := tos p;
     tossize := tossize p; tolimit := tolimit p; lowpc := lowpc p;
     highpc := highpc p; textsize := textsize p;
     hashfraction := hashfraction p |}.

(** Modelled from the spec: the macros [ROUNDDOWN] and [ROUNDUP] of
    [<sys/gmon.h>], which round to a multiple of [y], outward; the
    arithmetic is that of [u_long]. *)
Definition ROUNDDOWN (x y : Z) : Z := C.u_long (x / y * y).
Definition ROUNDUP (x y : Z) : Z :=
  C.u_long (C.u_long (C.u_long (x + y) - 1) / y * y).

Definition SCALE_1_TO_1 : Z := 0x10000.

(** [moncontrol(mode)]; profil(2), which it starts and stops, is the
    sampling source outside this program. *)
Definition moncontrol (mode : Z) (p : gmonparam) : gmonparam :=
  if negb (mode =? 0) then set_gstate GMON_PROF_ON p
  else set_gstate GMON_PROF_OFF p.

Section Gmon.
Context {abi : Abi}.

(** The branch of [monstartup] compiled when [notdef] is not defined:
    [((float)p->kcountsize / o) * SCALE_1_TO_1], stored in an [int]. *)
Definition scale_float (kcountsize o : Z) : option Z :=
  Float32.to_int
    (Float32.mul (Float32.div (Float32.of_Z kcountsize) (Float32.of_Z o))
                 (Float32.of_Z SCALE_1_TO_1)).

(** The branch compiled when [notdef] is defined ("avoid floating
    point"). [o] is an [int], [kcountsize] a [u_long]; an operation on
    both is done on [u_long]. *)
Definition scale_staged (kcountsize o : Z) : option Z :=
  match udiv (C.u_long o) kcountsize with
  | None => None
  | Some q =>
      let quot := C.int q in
      if 0x10000 <=? quot then Some 1
      else if 0x100 <=? quot then Some (0x10000 / quot)
      else if 0x800000 <=? o then
        match udiv (C.u_long o) (Z.shiftr kcountsize 8) with
        | None => None
        | Some d =>
            match udiv 0x1000000 d with
            | None => None
            | Some s => Some (C.int s)
            end
        end
      else if (o <? 0) || (C.INT_MAX <? Z.shiftl o 8) then None
      else
        match udiv (C.u_long (Z.shiftl o 8)) kcountsize with
        | None => None
        | Some d =>
            match udiv 0x1000000 d with
            | None => None
            | Some s => Some (C.int s)
            end
        end
  end.

(** mmap(2) of [len] anonymous bytes: a zero length is refused, otherwise
    the kernel decides. *)
Definition mmap (kernel : Z -> bool) (len : Z) : bool :=
  negb (len =? 0) && kernel len.

(** The result of a [monstartup] whose mappings succeeded: the session
    and [s_scale]. [MapFailed] is the exit through [mapfailed]. *)
Inductive started :=
| Started (p : gmonparam) (s_scale : Z)
| MapFailed.

Definition zero_tostruct : tostruct :=
  {| selfpc := 0; count := 0; link := 0 |}.

(** [monstartup(lowpc, highpc)]. [notdef] tells whether the macro of that
    name is defined when the file is compiled. *)
Definition monstartup (notdef : bool) (kernel : Z -> bool)
    (lowpc0 highpc0 : Z) : outcome started :=
  if HISTFRACTION * sizeof_HISTCOUNTER =? 0 then Undefined else
  let p_lowpc := ROUNDDOWN lowpc0 (HISTFRACTION * sizeof_HISTCOUNTER) in
  let p_highpc := ROUNDUP highpc0 (HISTFRACTION * sizeof_HISTCOUNTER) in
  let p_textsize := C.u_long (p_highpc - p_lowpc) in
  if HISTFRACTION =? 0 then Undefined else
  let p_kcountsize := p_textsize / HISTFRACTION in
  let p_hashfraction := HASHFRACTION in
  if p_hashfraction =? 0 then Undefined else
  let p_fromssize := p_textsize / p_hashfraction in
  let tolimit0 := C.long (C.u_long (p_textsize * ARCDENSITY) / 100) in
  let p_tolimit :=
    if tolimit0 <? MINARCS then MINARCS
    else if MAXARCS <? tolimit0 then MAXARCS
    else tolimit0 in
  let p_tossize := C.u_long (p_tolimit * sizeof_tostruct) in
  if negb (mmap kernel p_kcountsize) then Done MapFailed
  else if negb (mmap kernel p_fromssize) then Done MapFailed
  else if negb (mmap kernel p_tossize) then Done MapFailed
  else
    let p :=
      {| gstate := GMON_PROF_OFF;
         kcount := fun _ => 0; kcountsize := p_kcountsize;
         froms := fun _ => 0; fromssize := p_fromssize;
         tos := fun _ => zero_tostruct; tossize := p_tossize;
         tolimit := p_tolimit; lowpc := p_lowpc; highpc := p_highpc;
         textsize := p_textsize; hashfraction := p_hashfraction |} in
    let o := C.int (p_highpc - p_lowpc) in
    s <- (if p_kcountsize <? C.u_long o then
            defined (if notdef then scale_staged p_kcountsize o
                     else scale_float p_kcountsize o)
          else Done SCALE_1_TO_1) ;;
    Done (Started (moncontrol 1 p) s).

(** *** The trace channel *)

(** utrace(2): the records accepted so far, and how many more calls will
    succeed. *)
Record channel := {
  sent : list cstring;
  room : N
}.

(** [utrace(GMON_LABEL, buf, len)]: 0, or -1 on failure. *)
Definition utrace (buf : cstring) (len : Z) (ch : channel) : channel * Z :=
  match room ch with
  | N0 => (ch, -1)
  | n => ({| sent := sent ch ++ [firstn (Z.to_nat len) buf];
             room := N.pred n |}, 0)
  end.

Record clockinfo := {
  hz : Z;
  ci_profhz : Z
}.

Definition sizeof_ubuf : Z := C.u_long (KTR_USER_MAXLEN + 1).

(** [strlcpy(dst, src, size)]: what [dst] holds, and the length of
    [src]. *)
Definition strlcpy (src : cstring) (size : Z) : cstring * Z :=
  (firstn (Z.to_nat (size - 1)) src, strlen src).

(** The loop [for (j = i; j < limit; j++)] with [n] samples to go. *)
Fixpoint kcount_samples (p : gmonparam) (n : nat) (j : Z)
    (ubuf : cstring) (off : Z) : outcome (cstring * Z * Z) :=
  match n with
  | O => Done (ubuf, off, j)
  | S n' =>
      let '(s, len) :=
        snprintf (C.u_long (sizeof_ubuf - off)) " %04hx" [kcount p j] in
      _ <- assert (len =? 5) ;;
      let off' := C.u_long (off + len) in
      _ <- assert (off' <? sizeof_ubuf) ;;
      kcount_samples p n' (C.u_long (j + 1)) (ubuf ++ s) off'
  end.

(** The loop [for (i = 0; i < sample_total; i = j)]. The boolean of the
    result is false after [goto out]. *)
Fixpoint kcount_records (fuel : nat) (p : gmonparam)
    (sample_total sample_limit i : Z) (ch : channel)
  : outcome (channel * bool) :=
  if negb (i <? sample_total) then Done (ch, true)
  else
    match fuel with
    | O => OutOfFuel
    | S fuel' =>
        let '(ubuf, off) := strlcpy (lit "kcount") sizeof_ubuf in
        _ <- assert (off =? 6) ;;
        let limit :=
          if C.u_long (sample_total - i) <? sample_limit
          then sample_total
          else C.u_long (i + sample_limit) in
        r <- kcount_samples p (Z.to_nat (limit - i)) i ubuf off ;;
        let '(ubuf', off', j) := r in
        let '(ch', e) := utrace ubuf' off' ch in
        if e =? -1 then Done (ch', false)
        else kcount_records fuel' p sample_total sample_limit j ch'
    end.

(** The loop over one chain, from [toindex]. *)
Fixpoint arc_chain (fuel : nat) (p : gmonparam) (frompc toindex : Z)
    (ch : channel) : outcome (channel * bool) :=
  if toindex =? 0 then Done (ch, true)
  else
    match fuel with
    | O => OutOfFuel
    | S fuel' =>
        let arc :=
          {| raw_frompc := frompc;
             raw_selfpc := selfpc (tos p toindex);
             raw_count := count (tos p toindex) |} in
        let '(ubuf, len) :=
          snprintf sizeof_ubuf "rawarc %lx %lx %lx"
            [raw_frompc arc; raw_selfpc arc; raw_count arc] in
        if sizeof_ubuf <=? len then Done (ch, false)
        else
          let '(ch', e) := utrace ubuf len ch in
          if e =? -1 then Done (ch', false)
          else arc_chain fuel' p frompc (link (tos p toindex)) ch'
    end.

(** The loop [for (fromindex = 0; fromindex < endfrom; fromindex++)] with
    [n] slots to go. *)
Fixpoint arc_slots (fuel : nat) (p : gmonparam) (n : nat) (fromindex : Z)
    (ch : channel) : outcome (channel * bool) :=
  match n with
  | O => Done (ch, true)
  | S n' =>
      if froms p fromindex =? 0 then
        arc_slots fuel p n' (fromindex + 1) ch
      else
        let frompc :=
          C.u_long (lowpc p
                    + C.u_long (C.u_long (fromindex * hashfraction p)
                                * sizeof_froms)) in
        r <- arc_chain fuel p frompc (froms p fromindex) ch ;;
        let '(ch', ok) := r in
        if ok then arc_slots fuel p n' (fromindex + 1) ch'
        else Done (ch', false)
  end.

Inductive gmon_msg := msg_tos_overflow | msg_out_of_memory.

(** What [_mcleanup] leaves behind. *)
Record cleaned := {
  c_param : gmonparam;
  c_channel : channel;
  c_stderr : list gmon_msg
}.

(** [_mcleanup()]. [sysctl] is the answer of [sysctl(KERN_CLOCKRATE)]
    ([None] when it fails); [fuel] bounds the walk of an arc chain and
    the number of histogram records. *)
Definition _mcleanup (fuel : nat) (sysctl : option clockinfo)
    (p : gmonparam) (ch : channel) : outcome cleaned :=
  let err :=
    match gstate p with
    | GMON_PROF_ERROR => [msg_tos_overflow]
    | _ => []
    end in
  let profhz :=
    match sysctl with
    | None => 0
    | Some ci => if ci_profhz ci =? 0 then hz ci else ci_profhz ci
    end in
  let p := moncontrol 0 p in
  let finish ch := Done {| c_param := p; c_channel := ch; c_stderr := err |} in
  (* First, serialize the gmon header. *)
  let hdr :=
    {| lpc := lowpc p; hpc := highpc p;
       ncnt := C.u_int (kcountsize p + sizeof_gmonhdr);
       version := C.u_int GMONVERSION;
       profrate := C.u_int profhz |} in
  let '(ubuf, len) :=
    snprintf sizeof_ubuf "gmonhdr %lx %lx %x %x %x"
      [lpc hdr; hpc hdr; ncnt hdr; version hdr; profrate hdr] in
  if sizeof_ubuf <=? len then finish ch
  else
    let '(ch, e) := utrace ubuf len ch in
    if e =? -1 then finish ch
    else
      (* Next, serialize the kcount sample array. *)
      _ <- assert (sizeof_kcount =? 2) ;;
      let sample_total := kcountsize p / sizeof_kcount in
      let sample_limit := C.u_long (sizeof_ubuf - 6) / 5 in
      r <- kcount_records fuel p sample_total sample_limit 0 ch ;;
      let '(ch, ok) := r in
      if negb ok then finish ch
      else
        (* Last, serialize the arcs.  One per trace. *)
        let endfrom := C.int (fromssize p / sizeof_froms) in
        r <- arc_slots fuel p (Z.to_nat endfrom) 0 ch ;;
        let '(ch, ok) := r in
        if negb ok then finish ch
        else
          let '(ubuf, off) := strlcpy (lit "footer") sizeof_ubuf in
          _ <- assert (off =? 6) ;;
          let '(ch, _) := utrace ubuf off ch in
          finish ch.
End Gmon.

(** ** Vocabulary of the statements *)

(** Feeding a sequence of records to [gmon_append], one call each. *)
Definition feed {abi : Abi} (x : option de_io) (trace : cstring)
  : option de_io :=
  match x with
  | Some x => gmon_append x trace
  | None => None
  end.

Definition gmon_append_all {abi : Abi} (x : de_io) (traces : list cstring)
  : option de_io :=
  fold_left feed traces (Some x).

(** A hexadecimal digit as [%x] prints it. *)
Definition is_hex_digit (c : ascii) : bool :=
  ((48 <=? code c) && (code c <=? 57))
  || ((97 <=? code c) && (code c <=? 102)).

(** A sample field as [_mcleanup] writes it: four hexadecimal digits. *)
Definition well_formed_sample (p : cstring) : bool :=
  (length p =? 4)%nat && forallb is_hex_digit p.

(** A histogram record with the given sample fields. *)
Definition kcount_record (fields : list cstring) : cstring :=
  lit "kcount" ++ concat (map (fun f => " "%char :: f) fields).

(** The histogram of a session with the array [samples]. *)
Definition with_kcount (samples : Z -> Z) (p : gmonparam) : gmonparam :=
  {| gstate := gstate p; kcount := samples; kcountsize := kcountsize p;
     froms := froms p; fromssize := fromssize p; tos := tos p;
     tossize := tossize p; tolimit := tolimit p; lowpc := lowpc p;
     highpc := highpc p; textsize := textsize p;
     hashfraction := hashfraction p |}.

(** The session with the given arc tables. *)
Definition with_arcs (fr : Z -> Z) (to : Z -> tostruct) (p : gmonparam)
  : gmonparam :=
  {| gstate := gstate p; kcount := kcount p; kcountsize := kcountsize p;
     froms := fr; fromssize := fromssize p; tos := to;
     tossize := tossize p; tolimit := tolimit p; lowpc := lowpc p;
     highpc := highpc p; textsize := textsize p;
     hashfraction := hashfraction p |}.

(** The objects of a gmon.out file that a direct writer produces from a
    session: the header, the samples in array order, the arcs as
    [_mcleanup] enumerates them. *)
Definition samples_of (p : gmonparam) : list object :=
  map (fun j => Osample (kcount p (Z.of_nat j)))
      (seq 0 (Z.to_nat (kcountsize p / sizeof_kcount))).




(** The diagnostics of a failed deserialization: those of [de_warnx], and
    the [warn] after a failed [fwrite]. *)
Definition deserialization_diag (d : diag) : bool :=
  match d with
  | de_warnx_gmonhdr _ | de_warnx_ncnt _ | de_warnx_kcount _
  | de_warnx_sample _ _ _ | de_warnx_more_samples _ | de_warnx_rawarc _
  | warn_temp_path => true
  | _ => false
  end.

(** Between two calls of [gmon_append] either nothing was reported and the
    cursor is not in ERROR, or it is in ERROR and one diagnostic of the
    deserializer was written. *)
Definition settled (x : de_io) : Prop :=
  (state (de x) <> ERROR /\ stderr x = [])
  \/ (state (de x) = ERROR /\
      exists d, deserialization_diag d = true /\ stderr x = [d]).

(** The cursor states in which [ktrace_extract] calls [gmon_append]. *)
Definition in_progress (st : gmon_state) : bool :=
  match st with
  | HEADER | KCOUNT | RAWARC => true
  | FOOTER | ERROR => false
  end.




(** The header record of a session, as [_mcleanup] formats it. *)
Definition header_record {abi : Abi} (p : gmonparam) (profhz : Z) : cstring :=
  sprintf "gmonhdr %lx %lx %x %x %x"
    [lowpc p; highpc p; C.u_int (kcountsize p + sizeof_gmonhdr);
     C.u_int GMONVERSION; C.u_int profhz].

(** The rate that [_mcleanup] reports. *)
Definition reported_profhz (sysctl : option clockinfo) : Z :=
  match sysctl with
  | None => 0
  | Some ci => if ci_profhz ci =? 0 then hz ci else ci_profhz ci
  end.

(** A record that the trace channel takes. *)
Definition fits {abi : Abi} (r : cstring) : Prop :=
  strlen r <= KTR_USER_MAXLEN.

(** [ch'] is [ch] after more records, each within the channel's limit. *)
Definition grows {abi : Abi} (ch ch' : channel) : Prop :=
  exists l, sent ch' = sent ch ++ l /\ Forall fits l.

(** A call that neither fails an assertion nor has undefined behaviour. *)
Definition sound {A} (o : outcome A) : Prop :=
  match o with
  | Done _ | OutOfFuel => True
  | Aborted | Undefined => False
  end.

(** The indices [j, j+1, ..., j+n-1]. *)
Fixpoint zrange (j : Z) (n : nat) : list Z :=
  match n with
  | O => []
  | S n' => j :: zrange (j + 1) n'
  end.

(** The field of the histogram counter [j] in a record. *)
Definition sample_field (p : gmonparam) (j : Z) : cstring :=
  print_conv Conv_04hx (kcount p j).

(** The histogram record that carries the counters [js]. *)
Definition histogram_record (p : gmonparam) (js : list Z) : cstring :=
  kcount_record (map (sample_field p) js).

(** How the [T] counters from [i] on are split into records of at most [L]
    samples: [n] bounds the number of records. *)
Fixpoint sample_groups (n : nat) (T L i : Z) : list (list Z) :=
  match n with
  | O => []
  | S n' =>
      if i <? T then
        let limit := if T - i <? L then T else i + L in
        zrange i (Z.to_nat (limit - i)) :: sample_groups n' T L limit
      else []
  end.

(** The number of samples [_mcleanup] puts in one record. *)
Definition sample_limit_of {abi : Abi} : Z := C.u_long (sizeof_ubuf - 6) / 5.

(** The channel after the records [l] were accepted. *)
Definition after (ch : channel) (l : list cstring) : channel :=
  {| sent := sent ch ++ l; room := room ch - N.of_nat (length l) |}.

(** The chain of arcs rooted at the pool index [t]: the indices met by
    following [link] until 0. *)
Inductive chain (p : gmonparam) : Z -> list Z -> Prop :=
| chain_end : chain p 0 []
| chain_link : forall t l,
    t <> 0 -> chain p (link (tos p t)) l -> chain p t (t :: l).

(** The caller address that [_mcleanup] computes for the slot
    [fromindex]. *)
Definition frompc_of (p : gmonparam) (fromindex : Z) : Z :=
  C.u_long (lowpc p
            + C.u_long (C.u_long (fromindex * hashfraction p)
                        * sizeof_froms)).

(** The record of the arc at pool index [t] of a slot with caller address
    [frompc]. *)
Definition rawarc_record (p : gmonparam) (frompc t : Z) : cstring :=
  sprintf "rawarc %lx %lx %lx" [frompc; selfpc (tos p t); count (tos p t)].

(** The records of the slots [slots], whose chains are [chains]: slot by
    slot, each chain from its head. *)
Definition arc_records (p : gmonparam) (slots : list Z)
    (chains : list (list Z)) : list cstring :=
  concat (map (fun sl => map (rawarc_record p (frompc_of p (fst sl))) (snd sl))
              (combine slots chains)).

(** What [_mcleanup] writes to stderr. *)
Definition cleanup_stderr (p : gmonparam) : list gmon_msg :=
  match gstate p with
  | GMON_PROF_ERROR => [msg_tos_overflow]
  | _ => []
  end.

(** The return of [_mcleanup] with the channel [ch]. *)
Definition cleaned_with (p : gmonparam) (ch : channel) : cleaned :=
  {| c_param := moncontrol 0 p; c_channel := ch;
     c_stderr := cleanup_stderr p |}.

(** A session as [monstartup(0x1001, 0x1006)] lays it out, with two
    histogram counters and two arcs recorded in the first slot. *)
Definition small_session : gmonparam :=
  {| gstate := GMON_PROF_ON;
     kcount := fun j => if j =? 0 then 0x000a else 0xbeef;
     kcountsize := 4;
     froms := fun i => if i =? 0 then 2 else 0;
     fromssize := 4;
     tos := fun t =>
              if t =? 2 then {| selfpc := 0x10; count := 3; link := 1 |}
              else if t =? 1 then {| selfpc := 0x20; count := 1; link := 0 |}
              else zero_tostruct;
     tossize := 1200;
     tolimit := 50;
     lowpc := 0x1000;
     highpc := 0x1008;
     textsize := 8;
     hashfraction := 2 |}.

(** A trace channel that takes [n] records. *)
Definition empty_channel (n : N) : channel := {| sent := []; room := n |}.

(** The bytes to which [monstartup] rounds the bounds. *)
Definition rounding_unit {abi : Abi} : Z := HISTFRACTION * sizeof_HISTCOUNTER.

(** [p] has the bounds and the region sizes of [p0]: the session as
    [monstartup] opened it, whatever was counted since. *)
Definition same_layout (p0 p : gmonparam) : Prop :=
  lowpc p = lowpc p0 /\ highpc p = highpc p0 /\
  textsize p = textsize p0 /\ hashfraction p = hashfraction p0 /\
  kcountsize p = kcountsize p0 /\ fromssize p = fromssize p0.

(** What [monstartup(0x1001, 0x1006)] returns on OpenBSD when the kernel
    grants the three mappings. *)
Definition small_opened : gmonparam :=
  match monstartup (abi := openbsd_lp64) false (fun _ => true) 0x1001 0x1006
  with
  | Done (Started p _) => p
  | _ => small_session
  end.

(** A session over the text [0, 2^33): its from-table has 2^31 slots, and
    one arc is recorded in the first of them. *)
Definition huge_session : gmonparam :=
  {| gstate := GMON_PROF_ON;
     kcount := fun _ => 0;
     kcountsize := 2 ^ 32;
     froms := fun i => if i =? 0 then 1 else 0;
     fromssize := 2 ^ 32;
     tos := fun t =>
              if t =? 1 then {| selfpc := 0x10; count := 1; link := 0 |}
              else zero_tostruct;
     tossize := 65534 * 24;
     tolimit := 65534;
     lowpc := 0;
     highpc := 2 ^ 33;
     textsize := 2 ^ 33;
     hashfraction := 2 |}.

(** 0.5 in single precision. *)
Definition one_half : spec_float := S754_finite false (2 ^ 23) (-24).

(** The scale as the documentation words it, over the integers: the
    staging through three magnitude bands of the quotient of the text size
    by the histogram size. *)
Definition three_band_scale (text_size bucket_count : Z) : Z :=
  let quotient := text_size / bucket_count in
  if 0x10000 <=? quotient then 1
  else if 0x100 <=? quotient then 0x10000 / quotient
  else if 0x800000 <=? text_size
       then 0x1000000 / (text_size / Z.shiftr bucket_count 8)
  else 0x1000000 / (Z.shiftl text_size 8 / bucket_count).

(** What [monstartup(0, 0x80000000)] returns on OpenBSD when the kernel
    grants the three mappings: a text of exactly 2^31 bytes. *)
Definition opened_2GiB : gmonparam :=
  match monstartup (abi := openbsd_lp64) false (fun _ => true) 0 (2 ^ 31)
  with
  | Done (Started p _) => p
  | _ => small_session
  end.

(** The session of the round-trip example: text [0..4), one histogram
    counter holding [v], no arc. *)
Definition one_sample_session (v : Z) : outcome gmonparam :=
  r <- monstartup (abi := openbsd_lp64) false (fun _ => true) 0 4 ;;
  match r with
  | Started p _ => Done (with_kcount (fun _ => v) p)
  | MapFailed => Undefined
  end.

(** Its records on an unobstructed trace channel. *)
Definition one_sample_records (v : Z) : outcome (list cstring) :=
  p <- one_sample_session v ;;
  c <- _mcleanup (abi := openbsd_lp64) 1 None p {| sent := []; room := 8 |} ;;
  Done (sent (c_channel c)).

(** A ktrace file that holds the header and the histogram of a session
    and ends there. *)
Definition truncated_ktrace : ktrace_file :=
  let user buf :=
    {| ktr_hdr := {| ktr_type_of := KTR_USER; ktr_pid := 42 |};
       ktr_id := GMON_LABEL ++ [zero; zero];
       ktr_buf := buf ++ [zero] |} in
  {| kf_start := Some {| ktr_type_of := KTR_START; ktr_pid := 0 |};
     kf_records :=
       [user (lit "gmonhdr 0 4 2a 51879 0"); user (lit "kcount 0001")];
     kf_ferror := false |}.

Definition plain_host : host :=
  {| mkstemp_ok := true; unlink_ok := true; fdopen_ok := true;
     fflush_ok := true; fseek_ok := true; disk_space := 16 |}.

(** * Properties *)

(** ** The field decoder of the KCOUNT state *)

(** C2, evaluated at the failing input: with one sample expected, the
    record [kcount 00:0], whose field holds a colon, is taken as a sample
    (of value 0xa0) and the cursor moves on to RAWARC instead of ERROR. *)
Theorem kcount_accepts_non_hex_field :
  forall abi : Abi,
    well_formed_sample (lit "00:0") = false /\
    gmon_append
      {| fp := {| contents := []; space := 1 |};
         de := {| sample_count := 0; sample_total := 1; state := KCOUNT |};
         stderr := [] |}
      (lit "kcount 00:0")
    = Some {| fp := {| contents := [Osample 0xa0]; space := 0 |};
              de := {| sample_count := 1; sample_total := 1;
                       state := RAWARC |};
              stderr := [] |}.
Proof.
  intros abi. split; reflexivity.
Qed.

(** C1, evaluated at the failing input: a session whose only histogram
    counter holds 0x000a is written as [kcount 000a]; the deserializer
    reaches FOOTER without an error but the sample it has put in the file
    is 0x0031. *)
Theorem roundtrip_sample_000a_reads_0031 :
  one_sample_records 0x000a
  = Done [lit "gmonhdr 0 4 2a 51879 0"; lit "kcount 000a"; lit "footer"]
  /\ gmon_append_all (abi := openbsd_lp64) (start_io 8)
       [lit "gmonhdr 0 4 2a 51879 0"; lit "kcount 000a"; lit "footer"]
     = Some {| fp := {| contents :=
                          [Ohdr {| lpc := 0; hpc := 4; ncnt := 0x2a;
                                   version := 0x51879; profrate := 0 |};
                           Osample 0x0031];
                        space := 6 |};
               de := {| sample_count := 1; sample_total := 1;
                        state := FOOTER |};
               stderr := [] |}.
Proof.
  split; vm_compute; reflexivity.
Qed.

(** ** strsep(3) and the tokens of a record *)

Lemma strsep_all_unfold :
  forall s cur,
    strsep_all cur s =
    let '(tok, rest) := strsep_sp s in
    (rev cur ++ tok)
      :: match rest with Some r => strsep_all [] r | None => [] end.
Proof.
  induction s as [|c r IH]; intros cur; simpl.
  - now rewrite app_nil_r.
  - destruct (Ascii.eqb c " ") eqn:E.
    + now rewrite app_nil_r.
    + rewrite IH. destruct (strsep_sp r) as [tok rest]. simpl.
      now rewrite <- app_assoc.
Qed.







(** ** The KCOUNT state *)


Ltac bool_hyps :=
  repeat match goal with
  | H : _ && _ = true |- _ => apply andb_true_iff in H; destruct H
  | H : _ || _ = true |- _ => apply orb_true_iff in H; destruct H
  | H : (_ <=? _) = true |- _ => apply Z.leb_le in H
  | H : (_ <=? _) = false |- _ => apply Z.leb_gt in H
  | H : (_ <? _) = true |- _ => apply Z.ltb_lt in H
  | H : (_ <? _) = false |- _ => apply Z.ltb_ge in H
  | H : (_ =? _) = true |- _ => apply Z.eqb_eq in H
  | H : (_ =? _) = false |- _ => apply Z.eqb_neq in H
  | H : (_ =? _)%nat = true |- _ => apply Nat.eqb_eq in H
  end.



Lemma u_long_small : forall x, 0 <= x < 2 ^ 64 -> C.u_long x = x.
Proof. intros x H. unfold C.u_long. now apply Z.mod_small. Qed.


Lemma parse_format_rawarc :
  parse_format "rawarc %lx %lx %lx"
  = [Dchar "r"; Dchar "a"; Dchar "w"; Dchar "a"; Dchar "r"; Dchar "c";
     Dchar " "; Dconv Conv_lx; Dchar " "; Dconv Conv_lx;
     Dchar " "; Dconv Conv_lx].
Proof. reflexivity. Qed.

Lemma parse_format_gmonhdr :
  parse_format "gmonhdr %lx %lx %x %x %x"
  = [Dchar "g"; Dchar "m"; Dchar "o"; Dchar "n"; Dchar "h"; Dchar "d";
     Dchar "r"; Dchar " "; Dconv Conv_lx; Dchar " "; Dconv Conv_lx;
     Dchar " "; Dconv Conv_x; Dchar " "; Dconv Conv_x;
     Dchar " "; Dconv Conv_x].
Proof. reflexivity. Qed.

Lemma parse_format_sample :
  parse_format " %04hx" = [Dchar " "; Dconv Conv_04hx].
Proof. reflexivity. Qed.




(** ** The HEADER state *)







(** ** ktrace_extract *)

Lemma settled_error :
  forall x d,
    stderr x = [] -> deserialization_diag d = true ->
    settled (goto_error (say d x)).
Proof.
  intros x d Hx Hd. right. split; [reflexivity|].
  exists d. split; [assumption|]. cbn. now rewrite Hx.
Qed.

Lemma kcount_fields_settled :
  forall fields x,
    state (de x) = KCOUNT -> stderr x = [] ->
    settled (kcount_fields fields x) /\
    state (de (kcount_fields fields x)) <> FOOTER /\
    state (de (kcount_fields fields x)) <> HEADER.
Proof.
  induction fields as [|p rest IH]; intros x Hst Herr; cbn [kcount_fields].
  - destruct (sample_count (de x) =? sample_total (de x)).
    + split; [left|]; cbn; [split|split]; easy.
    + rewrite Hst. split; [left; rewrite Hst|]; easy.
  - destruct (negb (strlen p =? 4)).
    { split; [now apply settled_error|]. split; discriminate. }
    destruct (sample_count (de x) =? sample_total (de x)).
    { split; [now apply settled_error|]. split; discriminate. }
    destruct (sample_of_field p 0) as [s|bad].
    2:{ split; [now apply settled_error|]. split; discriminate. }
    destruct (fwrite (Osample s) (fp x)) as [fp' w].
    destruct (negb (w =? 1)).
    { split; [now apply settled_error|]. split; discriminate. }
    apply IH; assumption.
Qed.

Lemma gmon_append_settled :
  forall (abi : Abi) x trace,
    in_progress (state (de x)) = true -> stderr x = [] ->
    exists x', gmon_append x trace = Some x' /\ settled x' /\
               state (de x') <> HEADER.
Proof.
  intros abi x trace Hst Herr. unfold gmon_append.
  destruct (state (de x)) eqn:E; try discriminate Hst.
  - (* HEADER *)
    destruct (sscanf trace "gmonhdr %lx %lx %x %x %x")
      as [|l [|h [|n [|v [|r [|? ?]]]]]];
      try (eexists; split; [reflexivity|];
           split; [now apply settled_error|discriminate]).
    cbn [ncnt]. destruct (n <? sizeof_gmonhdr).
    { eexists; split; [reflexivity|].
      split; [now apply settled_error|discriminate]. }
    destruct (fwrite _ (fp x)) as [fp' w]. destruct (negb (w =? 1)).
    { eexists; split; [reflexivity|].
      split; [now apply settled_error|discriminate]. }
    eexists; split; [reflexivity|]. split; [left|]; cbn; [split|]; easy.
  - (* KCOUNT *)
    destruct (strsep_all [] trace) as [|p fields].
    { eexists; split; [reflexivity|].
      split; [now apply settled_error|discriminate]. }
    destruct (negb (strcmp0 p (lit "kcount"))).
    { eexists; split; [reflexivity|].
      split; [now apply settled_error|discriminate]. }
    eexists; split; [reflexivity|].
    destruct (kcount_fields_settled fields x E Herr) as (A & B & C0).
    now split.
  - (* RAWARC *)
    destruct (strcmp0 trace (lit "footer")).
    { eexists; split; [reflexivity|]. split; [left|]; cbn; [split|]; easy. }
    destruct (sscanf trace "rawarc %lx %lx %lx") as [|f [|s [|c [|? ?]]]];
      try (eexists; split; [reflexivity|];
           split; [now apply settled_error|discriminate]).
    destruct (fwrite _ (fp x)) as [fp' w]. destruct (negb (w =? 1)).
    { eexists; split; [reflexivity|].
      split; [now apply settled_error|discriminate]. }
    eexists; split; [reflexivity|]. cbn [de].
    split; [left; cbn; rewrite E; split; easy|rewrite E; discriminate].
Qed.

Lemma extract_loop_settled :
  forall (abi : Abi) target_pid recs pid x,
    in_progress (state (de x)) = true -> stderr x = [] ->
    exists x',
      extract_loop target_pid recs pid x = Some x' /\ settled x'.
Proof.
  intros abi target_pid. induction recs as [|r rest IH]; intros pid x Hst Herr.
  - exists x. split; [reflexivity|]. left. split; [|assumption].
    destruct (state (de x)); easy.
  - cbn [extract_loop].
    destruct (negb (is_ktr_user _)); [now apply IH|].
    destruct (label_differs _); [now apply IH|].
    match goal with |- context [if ?b then _ else _] => destruct b end;
      [now apply IH|].
    match goal with |- context [if ?b then _ else _] => destruct b end;
      [now apply IH|].
    destruct (gmon_append_settled abi x (c_str (ktr_buf r)) Hst Herr)
      as (x' & Hx' & Hs & Hh).
    rewrite Hx'.
    destruct (state (de x')) eqn:E; try (now exists x').
    + apply IH; [now rewrite E|].
      destruct Hs as [[_ H]|[H _]]; [assumption|congruence].
    + apply IH; [now rewrite E|].
      destruct Hs as [[_ H]|[H _]]; [assumption|congruence].
Qed.

(** C7: with the temporary file and the ktrace header in order and no read
    error, the loop of [ktrace_extract] always ends with some cursor [x]
    (it never reaches [abort()]).  If the records ran out while [x] is in
    KCOUNT or RAWARC, the result is [NULL] and the only message is the one
    for an incomplete record set; if [x] is in ERROR, the result is [NULL]
    and the only message is the diagnostic of the malformed record; a
    stream is returned only when [x] is in FOOTER. *)
Theorem truncation_is_not_corruption :
  forall (abi : Abi) (os : host) (target_pid : Z) (kfp : ktrace_file)
         (header : ktr_header),
    mkstemp_ok os = true -> unlink_ok os = true -> fdopen_ok os = true ->
    kf_start kfp = Some header ->
    is_ktr_start (ktr_type_of header) = true ->
    kf_ferror kfp = false ->
    exists x,
      extract_loop target_pid (kf_records kfp) None
        (start_io (disk_space os)) = Some x /\
      (state (de x) = KCOUNT \/ state (de x) = RAWARC ->
       ktrace_extract os target_pid kfp
       = Some (failed [warnx_incomplete_record_set])) /\
      (state (de x) = ERROR ->
       exists d,
         deserialization_diag d = true /\
         ktrace_extract os target_pid kfp = Some (failed [d])) /\
      (forall r f,
          ktrace_extract os target_pid kfp = Some r ->
          returned r = Some f ->
          state (de x) = FOOTER /\ f = fp x).
Proof.
  intros abi os target_pid kfp header Hmk Hun Hfd Hstart Hty Hferr.
  destruct (extract_loop_settled abi target_pid (kf_records kfp) None
              (start_io (disk_space os)) eq_refl eq_refl) as (x & Hx & Hs).
  exists x. split; [exact Hx|].
  unfold ktrace_extract.
  rewrite Hmk, Hun, Hfd, Hstart, Hty, Hx, Hferr. cbn [negb].
  split; [|split].
  - intros [E|E]; rewrite E;
      (destruct Hs as [[_ H]|[H _]]; [now rewrite H|congruence]).
  - intros E. rewrite E. destruct Hs as [[H _]|[_ (d & Hd & H)]]; [easy|].
    exists d. now rewrite H.
  - intros r f Hr Hf.
    destruct (state (de x)) eqn:E;
      try (injection Hr as <-; discriminate Hf).
    split; [reflexivity|].
    destruct (negb (fflush_ok os)); [injection Hr as <-; discriminate Hf|].
    destruct (negb (fseek_ok os)); [injection Hr as <-; discriminate Hf|].
    injection Hr as <-. cbn in Hf. now injection Hf.
Qed.

Lemma truncation_is_not_corruption_witness :
  exists x,
    extract_loop (abi := openbsd_lp64) (-1) (kf_records truncated_ktrace)
      None (start_io (disk_space plain_host)) = Some x /\
    (state (de x) = KCOUNT \/ state (de x) = RAWARC ->
     ktrace_extract (abi := openbsd_lp64) plain_host (-1) truncated_ktrace
     = Some (failed [warnx_incomplete_record_set])) /\
    (state (de x) = ERROR ->
     exists d,
       deserialization_diag d = true /\
       ktrace_extract (abi := openbsd_lp64) plain_host (-1) truncated_ktrace
       = Some (failed [d])) /\
    (forall r f,
        ktrace_extract (abi := openbsd_lp64) plain_host (-1) truncated_ktrace
        = Some r ->
        returned r = Some f ->
        state (de x) = FOOTER /\ f = fp x).
Proof.
  apply (truncation_is_not_corruption openbsd_lp64 plain_host (-1)
           truncated_ktrace {| ktr_type_of := KTR_START; ktr_pid := 0 |});
    reflexivity.
Defined.

Example truncated_ktrace_is_incomplete :
  ktrace_extract (abi := openbsd_lp64) plain_host (-1) truncated_ktrace
  = Some (failed [warnx_incomplete_record_set]).
Proof. vm_compute. reflexivity. Qed.

(** ** Printing and scanning hexadecimal numbers *)



Lemma hex_digits_acc :
  forall n v acc, hex_digits n v acc = hex_digits n v [] ++ acc.
Proof.
  induction n as [|n IH]; intros v acc; cbn [hex_digits].
  - reflexivity.
  - destruct (v / 16 =? 0); [reflexivity|].
    rewrite (IH _ (_ :: acc)), (IH _ [_]). now rewrite <- app_assoc.
Qed.

Lemma hex_digits_length :
  forall n v,
    (1 <= length (hex_digits (S n) v []) <= S n)%nat.
Proof.
  induction n as [|n IH]; intros v.
  - cbn [hex_digits]. destruct (v / 16 =? 0); cbn; lia.
  - change (hex_digits (S (S n)) v [])
      with (if v / 16 =? 0 then [hexchar (v mod 16)]
            else hex_digits (S n) (v / 16) [hexchar (v mod 16)]).
    destruct (v / 16 =? 0); [cbn; lia|].
    rewrite hex_digits_acc, length_app. cbn [length].
    specialize (IH (v / 16)). lia.
Qed.












(** ** The records of _mcleanup *)

Lemma grows_refl : forall (abi : Abi) ch, grows ch ch.
Proof.
  intros abi ch. exists []. split; [now rewrite app_nil_r|constructor].
Qed.

Lemma grows_trans :
  forall (abi : Abi) a b c, grows a b -> grows b c -> grows a c.
Proof.
  intros abi a b c (l1 & E1 & F1) (l2 & E2 & F2). exists (l1 ++ l2).
  rewrite E2, E1, app_assoc. split; [reflexivity|]. now apply Forall_app.
Qed.

Section Records.
Context {abi : Abi}.
Hypothesis maxlen_range : 0 <= KTR_USER_MAXLEN < 2 ^ 64 - 1.

Lemma sizeof_ubuf_eq : sizeof_ubuf = KTR_USER_MAXLEN + 1.
Proof. unfold sizeof_ubuf. apply u_long_small. lia. Qed.

Lemma utrace_grows :
  forall buf len ch ch' e,
    utrace buf len ch = (ch', e) ->
    len <= KTR_USER_MAXLEN ->
    grows ch ch'.
Proof.
  intros buf len ch ch' e H Hlen. unfold utrace in H.
  destruct (room ch); injection H as <- <-.
  - apply grows_refl.
  - eexists. split; [reflexivity|]. repeat constructor.
    unfold fits, strlen. rewrite length_firstn. lia.
Qed.

Lemma kcount_samples_off :
  forall p n j ubuf off r,
    kcount_samples p n j ubuf off = Done r ->
    off <= KTR_USER_MAXLEN ->
    snd (fst r) <= KTR_USER_MAXLEN.
Proof.
  intros p. induction n as [|n IH]; intros j ubuf off r H Hoff.
  - injection H as <-. exact Hoff.
  - cbn [kcount_samples] in H.
    destruct (snprintf _ _ _) as [s len].
    destruct (len =? 5); [|discriminate H]. cbn [assert bind] in H.
    destruct (C.u_long (off + len) <? sizeof_ubuf) eqn:E;
      [|discriminate H]. cbn [assert bind] in H.
    apply IH in H; [exact H|]. bool_hyps. rewrite sizeof_ubuf_eq in E. lia.
Qed.

Lemma kcount_records_grows :
  forall fuel p T L i ch r,
    kcount_records fuel p T L i ch = Done r ->
    6 <= KTR_USER_MAXLEN ->
    grows ch (fst r).
Proof.
  induction fuel as [|fuel IH]; intros p T L i ch r H H6;
    cbn [kcount_records] in H.
  - destruct (negb (i <? T)); [|discriminate H].
    injection H as <-. apply grows_refl.
  - destruct (negb (i <? T)); [injection H as <-; apply grows_refl|].
    unfold strlcpy in H. cbv zeta in H.
    change (strlen (lit "kcount") =? 6) with true in H.
    cbn [assert bind] in H.
    destruct (kcount_samples _ _ _ _ _) as [[[ubuf' off'] j]| | |] eqn:Es;
      try discriminate H.
    cbn [bind] in H.
    apply kcount_samples_off in Es; [|change (strlen (lit "kcount")) with 6; lia].
    cbn [fst snd] in Es.
    destruct (utrace ubuf' off' ch) as [ch' e] eqn:Eu.
    apply utrace_grows in Eu; [|assumption].
    destruct (e =? -1).
    + injection H as <-. exact Eu.
    + apply IH in H; [|assumption]. now apply (grows_trans _ _ ch').
Qed.

Lemma arc_chain_grows :
  forall fuel p frompc toindex ch r,
    arc_chain fuel p frompc toindex ch = Done r -> grows ch (fst r).
Proof.
  induction fuel as [|fuel IH]; intros p frompc toindex ch r H;
    cbn [arc_chain] in H.
  - destruct (toindex =? 0); [|discriminate H].
    injection H as <-. apply grows_refl.
  - destruct (toindex =? 0); [injection H as <-; apply grows_refl|].
    cbv zeta in H. destruct (snprintf _ _ _) as [ubuf len].
    destruct (sizeof_ubuf <=? len) eqn:E;
      [injection H as <-; apply grows_refl|].
    destruct (utrace ubuf len ch) as [ch' e] eqn:Eu.
    apply utrace_grows in Eu;
      [|bool_hyps; rewrite sizeof_ubuf_eq in E; lia].
    destruct (e =? -1).
    + injection H as <-. exact Eu.
    + apply IH in H. now apply (grows_trans _ _ ch').
Qed.

Lemma arc_slots_grows :
  forall fuel p n fromindex ch r,
    arc_slots fuel p n fromindex ch = Done r -> grows ch (fst r).
Proof.
  intros fuel p. induction n as [|n IH]; intros fromindex ch r H;
    cbn [arc_slots] in H.
  - injection H as <-. apply grows_refl.
  - destruct (froms p fromindex =? 0); [now apply IH in H|].
    cbv zeta in H.
    destruct (arc_chain _ _ _ _ _) as [[ch' ok]| | |] eqn:Ec;
      try discriminate H.
    cbn [bind] in H. apply arc_chain_grows in Ec. cbn [fst] in Ec.
    destruct ok.
    + apply IH in H. now apply (grows_trans _ _ ch').
    + injection H as <-. exact Ec.
Qed.

End Records.

(** ** The histogram records *)

Lemma print_04hx_length :
  forall v, length (print_conv Conv_04hx v) = 4%nat.
Proof.
  intros v. cbn [print_conv]. unfold zero_pad.
  pose proof (hex_digits_length 3 (C.u_short v)).
  rewrite length_app, repeat_length. lia.
Qed.

Lemma sprintf_sample :
  forall v, sprintf " %04hx" [v] = " "%char :: print_conv Conv_04hx v.
Proof.
  intros v. unfold sprintf. rewrite parse_format_sample.
  cbn [print_directives]. now rewrite app_nil_r.
Qed.

Lemma zrange_length : forall n j, length (zrange j n) = n.
Proof. induction n; intros j; cbn; auto. Qed.

Lemma zrange_app :
  forall a b j,
    zrange j (a + b) = zrange j a ++ zrange (j + Z.of_nat a) b.
Proof.
  induction a as [|a IH]; intros b j.
  - cbn. now rewrite Z.add_0_r.
  - cbn [Nat.add zrange app]. rewrite IH. do 3 f_equal. lia.
Qed.

Lemma histogram_record_length :
  forall p js, strlen (histogram_record p js) = 6 + 5 * Z.of_nat (length js).
Proof.
  intros p js. unfold histogram_record, kcount_record, strlen.
  rewrite length_app. change (length (lit "kcount")) with 6%nat.
  induction js as [|j js IH]; [reflexivity|].
  cbn [map concat]. rewrite length_app in *. cbn [length].
  unfold sample_field at 1. rewrite print_04hx_length. lia.
Qed.

Lemma histogram_record_snoc :
  forall p js j,
    histogram_record p js ++ " "%char :: sample_field p j
    = histogram_record p (js ++ [j]).
Proof.
  intros p js j. unfold histogram_record, kcount_record.
  rewrite map_app, map_app, concat_app. cbn [map concat].
  now rewrite app_nil_r, <- app_assoc.
Qed.

Section Histogram.
Context {abi : Abi}.
Hypothesis maxlen_range : 0 <= KTR_USER_MAXLEN < 2 ^ 64 - 1.

Lemma kcount_samples_spec :
  forall p n j js off,
    off = strlen (histogram_record p js) ->
    off + 5 * Z.of_nat n < sizeof_ubuf ->
    0 <= j -> j + Z.of_nat n < 2 ^ 64 ->
    kcount_samples p n j (histogram_record p js) off
    = Done (histogram_record p (js ++ zrange j n),
            off + 5 * Z.of_nat n, j + Z.of_nat n).
Proof.
  intros p. induction n as [|n IH]; intros j js off Hoff Hfit Hj Hjn.
  - cbn [kcount_samples zrange]. rewrite app_nil_r.
    now rewrite Z.mul_0_r, !Z.add_0_r.
  - cbn [kcount_samples]. unfold snprintf. rewrite sprintf_sample.
    pose proof (histogram_record_length p js) as Hlen.
    pose proof (sizeof_ubuf_eq maxlen_range) as Hsz.
    assert (Hoff0 : 0 <= off) by lia.
    assert (Hs5 : strlen (" "%char :: print_conv Conv_04hx (kcount p j)) = 5).
    { unfold strlen. cbn [length]. now rewrite print_04hx_length. }
    cbv zeta. rewrite !Hs5.
    change (5 =? 5) with true. cbn [assert bind].
    rewrite (u_long_small (off + 5)) by lia.
    assert (E : (off + 5 <? sizeof_ubuf) = true) by (apply Z.ltb_lt; lia).
    rewrite E. cbn [assert bind].
    rewrite (u_long_small (sizeof_ubuf - off)) by lia.
    rewrite firstn_all2
      by (cbn [length]; rewrite print_04hx_length; clear IH; lia).
    rewrite (u_long_small (j + 1)) by lia.
    fold (sample_field p j). rewrite histogram_record_snoc.
    rewrite IH; try lia.
    + rewrite <- app_assoc. cbn [app zrange].
      replace (off + 5 + 5 * Z.of_nat n) with (off + 5 * Z.of_nat (S n))
        by lia.
      replace (j + 1 + Z.of_nat n) with (j + Z.of_nat (S n)) by lia.
      reflexivity.
    + rewrite histogram_record_length, length_app. cbn [length]. lia.
Qed.

End Histogram.

Lemma after_nil : forall ch, after ch [] = ch.
Proof.
  intros [s r]. unfold after. cbn. rewrite app_nil_r. f_equal. lia.
Qed.

Lemma after_cons :
  forall ch r l, after (after ch [r]) l = after ch (r :: l).
Proof.
  intros ch r l. unfold after. cbn [sent room length].
  rewrite <- app_assoc. f_equal. lia.
Qed.

Lemma after_app :
  forall ch l1 l2, after (after ch l1) l2 = after ch (l1 ++ l2).
Proof.
  intros ch l1 l2. unfold after. cbn [sent room].
  rewrite <- app_assoc, length_app. f_equal. lia.
Qed.

Lemma utrace_ok :
  forall buf len ch,
    room ch <> 0%N ->
    len = strlen buf ->
    utrace buf len ch = (after ch [buf], 0).
Proof.
  intros buf len ch Hroom ->. unfold utrace, after, strlen.
  rewrite Nat2Z.id, firstn_all.
  destruct (room ch) as [|n] eqn:E; [easy|]. do 2 f_equal.
  cbn [length]. lia.
Qed.

Lemma sample_groups_stable :
  forall n m T L i,
    1 <= L -> (Z.to_nat (T - i) <= n)%nat -> (Z.to_nat (T - i) <= m)%nat ->
    sample_groups n T L i = sample_groups m T L i.
Proof.
  induction n as [|n IH]; intros m T L i HL Hn Hm.
  - destruct m as [|m]; [reflexivity|]. cbn [sample_groups].
    destruct (i <? T) eqn:E; [bool_hyps; lia|reflexivity].
  - destruct m as [|m]; cbn [sample_groups];
      destruct (i <? T) eqn:E; try reflexivity; bool_hyps; [lia|].
    f_equal. apply IH; [assumption| |];
      destruct (T - i <? L) eqn:E'; bool_hyps; lia.
Qed.

Lemma sample_groups_cover :
  forall n T L i,
    1 <= L -> 0 <= i <= T -> (Z.to_nat (T - i) <= n)%nat ->
    concat (sample_groups n T L i) = zrange i (Z.to_nat (T - i)) /\
    Forall (fun g => 1 <= Z.of_nat (length g) <= L) (sample_groups n T L i) /\
    (i < T -> sample_groups n T L i <> []).
Proof.
  induction n as [|n IH]; intros T L i HL Hi Hn.
  - cbn [sample_groups concat]. replace (Z.to_nat (T - i)) with 0%nat by lia.
    repeat split; [constructor|lia].
  - cbn [sample_groups]. destruct (i <? T) eqn:E; bool_hyps.
    2:{ replace (Z.to_nat (T - i)) with 0%nat by lia.
        repeat split; [constructor|lia]. }
    set (limit := if T - i <? L then T else i + L).
    assert (Hlim : i < limit <= T /\ limit - i <= L).
    { unfold limit. destruct (T - i <? L) eqn:E'; bool_hyps; lia. }
    destruct (IH T L limit HL) as (A & B & _); [lia|lia|].
    cbn [concat]. rewrite A. split; [|split].
    + replace (Z.to_nat (T - i))
        with (Z.to_nat (limit - i) + Z.to_nat (T - limit))%nat by lia.
      rewrite zrange_app. do 2 f_equal. lia.
    + constructor; [|exact B]. rewrite zrange_length. lia.
    + discriminate.
Qed.

Section HistogramLoop.
Context {abi : Abi}.
Hypothesis maxlen_range : 0 <= KTR_USER_MAXLEN < 2 ^ 64 - 1.

Lemma kcount_records_step :
  forall p T L i,
    0 <= L -> 6 + 5 * L < sizeof_ubuf ->
    0 <= i < T -> T < 2 ^ 63 ->
    let limit := if T - i <? L then T else i + L in
    (if C.u_long (T - i) <? L then T else C.u_long (i + L)) = limit /\
    i <= limit <= T /\
    kcount_samples p (Z.to_nat (limit - i)) i (lit "kcount") 6
    = Done (histogram_record p (zrange i (Z.to_nat (limit - i))),
            strlen (histogram_record p (zrange i (Z.to_nat (limit - i)))),
            limit).
Proof.
  intros p T L i HL Hfit Hi HT limit.
  pose proof (sizeof_ubuf_eq maxlen_range) as Hsz.
  assert (Hlim : i <= limit <= T /\ limit - i <= L).
  { unfold limit. destruct (T - i <? L) eqn:E'; bool_hyps; lia. }
  split; [|split; [lia|]].
  - rewrite u_long_small by lia. unfold limit.
    destruct (T - i <? L); [reflexivity|]. apply u_long_small. lia.
  - change (lit "kcount") with (histogram_record p []).
    rewrite (kcount_samples_spec maxlen_range p _ i [] 6);
      [|reflexivity|lia|lia|lia].
    cbn [app]. rewrite histogram_record_length, zrange_length.
    do 3 f_equal. lia.
Qed.

Lemma kcount_records_sound :
  forall fuel p T L i ch,
    0 <= L -> 6 + 5 * L < sizeof_ubuf ->
    0 <= i -> T < 2 ^ 63 ->
    sound (kcount_records fuel p T L i ch).
Proof.
  induction fuel as [|fuel IH]; intros p T L i ch HL Hfit Hi HT;
    cbn [kcount_records]; destruct (i <? T) eqn:E; cbn [negb];
    try exact I.
  apply Z.ltb_lt in E.
  unfold strlcpy. cbv zeta.
  change (strlen (lit "kcount") =? 6) with true. cbn [assert bind].
  change (strlen (lit "kcount")) with 6.
  pose proof (sizeof_ubuf_eq maxlen_range) as Hsz.
  rewrite firstn_all2 by (change (length (lit "kcount")) with 6%nat; lia).
  destruct (kcount_records_step p T L i HL Hfit (conj Hi E) HT)
    as (El & Hl & Es).
  rewrite El, Es. cbn [bind].
  destruct (utrace _ _ ch) as [ch' e]. destruct (e =? -1); [exact I|].
  apply IH; try assumption. lia.
Qed.

Lemma kcount_records_spec :
  forall fuel p T L i ch,
    1 <= L -> 6 + 5 * L < sizeof_ubuf ->
    0 <= i <= T -> T < 2 ^ 63 ->
    (Z.to_nat (T - i) <= fuel)%nat ->
    (N.of_nat (length (sample_groups fuel T L i)) <= room ch)%N ->
    kcount_records fuel p T L i ch
    = Done (after ch (map (histogram_record p) (sample_groups fuel T L i)),
            true).
Proof.
  induction fuel as [|fuel IH]; intros p T L i ch HL Hfit Hi HT Hfuel Hroom;
    cbn [kcount_records sample_groups] in *;
    destruct (i <? T) eqn:E; cbn [negb map]; bool_hyps;
    try (now rewrite after_nil); [lia|].
  unfold strlcpy. cbv zeta.
  change (strlen (lit "kcount") =? 6) with true. cbn [assert bind].
  change (strlen (lit "kcount")) with 6.
  pose proof (sizeof_ubuf_eq maxlen_range) as Hsz.
  rewrite firstn_all2 by (change (length (lit "kcount")) with 6%nat; lia).
  destruct (kcount_records_step p T L i ltac:(lia) Hfit ltac:(lia) HT)
    as (El & Hl & Es).
  rewrite El, Es. cbn [bind].
  cbn [length] in Hroom.
  rewrite utrace_ok; [|lia|reflexivity].
  change (0 =? -1) with false. cbv iota.
  rewrite IH; try assumption; try lia.
  - now rewrite after_cons.
  - destruct (T - i <? L) eqn:E'; bool_hyps; lia.
  - unfold after. cbn [room length]. lia.
Qed.

End HistogramLoop.

(** ** The arc records *)

Lemma print_conv_length :
  forall k v, (length (print_conv k v) <= 16)%nat.
Proof.
  intros [] v; cbn [print_conv].
  - pose proof (hex_digits_length 15 (C.u_long v)). lia.
  - pose proof (hex_digits_length 7 (C.u_int v)). lia.
  - fold (print_conv Conv_04hx v). rewrite print_04hx_length. lia.
Qed.

Lemma rawarc_record_length :
  forall p frompc t, strlen (rawarc_record p frompc t) <= 57.
Proof.
  intros p frompc t. unfold rawarc_record, sprintf, strlen.
  rewrite parse_format_rawarc. cbn [print_directives length].
  repeat (rewrite length_app; cbn [length]).
  pose proof (print_conv_length Conv_lx frompc).
  pose proof (print_conv_length Conv_lx (selfpc (tos p t))).
  pose proof (print_conv_length Conv_lx (count (tos p t))).
  lia.
Qed.

Lemma header_record_length :
  forall (abi : Abi) p profhz, strlen (header_record p profhz) <= 68.
Proof.
  intros abi p profhz. unfold header_record, sprintf, strlen.
  rewrite parse_format_gmonhdr. cbn [print_directives length].
  repeat (rewrite length_app; cbn [length]).
  pose proof (print_conv_length Conv_lx (lowpc p)).
  pose proof (print_conv_length Conv_lx (highpc p)).
  pose proof (hex_digits_length 7
                (C.u_int (C.u_int (kcountsize p + sizeof_gmonhdr)))).
  pose proof (hex_digits_length 7 (C.u_int (C.u_int GMONVERSION))).
  pose proof (hex_digits_length 7 (C.u_int (C.u_int profhz))).
  cbn [print_conv] in *. lia.
Qed.

Lemma rawarc_record_eq :
  forall p frompc t,
    rawarc_record p frompc t
    = sprintf "rawarc %lx %lx %lx" [frompc; selfpc (tos p t); count (tos p t)].
Proof. reflexivity. Qed.

Lemma chain_zero : forall p l, chain p 0 l -> l = [].
Proof. intros p l H. inversion H; [reflexivity|easy]. Qed.

Lemma arc_chain_sound :
  forall (abi : Abi) fuel p frompc toindex ch,
    sound (arc_chain fuel p frompc toindex ch).
Proof.
  intros abi. induction fuel as [|fuel IH]; intros p frompc toindex ch;
    cbn [arc_chain]; destruct (toindex =? 0); try exact I.
  cbv zeta. destruct (snprintf _ _ _) as [ubuf len].
  destruct (sizeof_ubuf <=? len); [exact I|].
  destruct (utrace ubuf len ch) as [ch' e].
  destruct (e =? -1); [exact I|apply IH].
Qed.

Lemma arc_slots_sound :
  forall (abi : Abi) fuel p n fromindex ch,
    sound (arc_slots fuel p n fromindex ch).
Proof.
  intros abi fuel p. induction n as [|n IH]; intros fromindex ch;
    cbn [arc_slots]; [exact I|].
  destruct (froms p fromindex =? 0); [apply IH|]. cbv zeta.
  pose proof (arc_chain_sound abi fuel p
                (C.u_long (lowpc p
                   + C.u_long (C.u_long (fromindex * hashfraction p)
                               * sizeof_froms)))
                (froms p fromindex) ch) as S.
  destruct (arc_chain _ _ _ _ _) as [[ch' ok]| | |]; try easy.
  cbn [bind]. destruct ok; [apply IH|exact I].
Qed.

Section Arcs.
Context {abi : Abi}.
Hypothesis maxlen_range : 57 <= KTR_USER_MAXLEN < 2 ^ 64 - 1.

Lemma arc_chain_step :
  forall fuel p frompc t ch,
    t <> 0 ->
    arc_chain (S fuel) p frompc t ch
    = let r :=
        sprintf "rawarc %lx %lx %lx"
          [frompc; selfpc (tos p t); count (tos p t)] in
      if sizeof_ubuf <=? strlen r then Done (ch, false)
      else
        let '(ch', e) :=
          utrace (firstn (Z.to_nat (sizeof_ubuf - 1)) r) (strlen r) ch in
        if e =? -1 then Done (ch', false)
        else arc_chain fuel p frompc (link (tos p t)) ch'.
Proof.
  intros fuel p frompc t ch Ht. cbn [arc_chain]. apply Z.eqb_neq in Ht.
  rewrite Ht. reflexivity.
Qed.

Lemma firstn_fits :
  forall (r : cstring) size,
    strlen r < size -> firstn (Z.to_nat (size - 1)) r = r.
Proof. intros r size H. unfold strlen in H. apply firstn_all2. lia. Qed.

Lemma arc_chain_spec :
  forall p frompc l fuel t ch,
    chain p t l ->
    (length l <= fuel)%nat ->
    (N.of_nat (length l) <= room ch)%N ->
    arc_chain fuel p frompc t ch
    = Done (after ch (map (rawarc_record p frompc) l), true).
Proof.
  intros p frompc. induction l as [|t0 l IH]; intros fuel t ch Hc Hf Hr.
  - inversion Hc; subst. destruct fuel; cbn [arc_chain map];
      change (0 =? 0) with true; cbv iota; now rewrite after_nil.
  - inversion Hc as [|? ? Ht Hc']; subst.
    destruct fuel as [|fuel]; [cbn [length] in Hf; lia|].
    rewrite arc_chain_step by assumption. cbv zeta.
    rewrite <- rawarc_record_eq. cbn [map length] in *.
    pose proof (rawarc_record_length p frompc t0) as Hlen.
    assert (Hsz : sizeof_ubuf = KTR_USER_MAXLEN + 1)
      by (apply sizeof_ubuf_eq; lia).
    generalize dependent (rawarc_record p frompc t0). intros R Hlen.
    assert (E : (sizeof_ubuf <=? strlen R) = false)
      by (apply Z.leb_gt; lia).
    rewrite E, firstn_fits by lia.
    rewrite utrace_ok; [|lia|reflexivity].
    change (0 =? -1) with false. cbv iota.
    rewrite (IH fuel); [| assumption | lia |].
    + now rewrite after_cons.
    + unfold after. cbn [room length]. lia.
Qed.

Lemma arc_slots_spec :
  forall p fuel n fromindex chains ch,
    Forall2 (fun i l => chain p (froms p i) l) (zrange fromindex n) chains ->
    Forall (fun l => (length l <= fuel)%nat) chains ->
    (N.of_nat (length (arc_records p (zrange fromindex n) chains))
     <= room ch)%N ->
    arc_slots fuel p n fromindex ch
    = Done (after ch (arc_records p (zrange fromindex n) chains), true).
Proof.
  intros p fuel. induction n as [|n IH]; intros fromindex chains ch HF Hfuel Hr.
  - cbn [arc_slots zrange]. unfold arc_records. cbn [combine map concat].
    now rewrite after_nil.
  - cbn [zrange] in *. inversion HF as [|? l0 ? chains' Hc HF']; subst.
    inversion Hfuel as [|? ? Hf0 Hfuel']; subst.
    unfold arc_records in *. cbn [combine map concat fst snd] in *.
    rewrite length_app in Hr.
    cbn [arc_slots]. destruct (froms p fromindex =? 0) eqn:E.
    + apply Z.eqb_eq in E. rewrite E in Hc. apply chain_zero in Hc. subst l0.
      cbn [map app]. apply IH; assumption.
    + cbv zeta. fold (frompc_of p fromindex).
      rewrite (arc_chain_spec p _ l0); [|assumption|assumption|].
      2:{ rewrite length_map in Hr. lia. }
      cbn [bind]. rewrite (IH _ chains'); [|assumption|assumption|].
      * now rewrite after_app.
      * unfold after. cbn [room]. lia.
Qed.

End Arcs.

(** ** _mcleanup as a whole *)

Lemma header_record_eq :
  forall (abi : Abi) p profhz,
    header_record p profhz
    = sprintf "gmonhdr %lx %lx %x %x %x"
        [lowpc p; highpc p; C.u_int (kcountsize p + sizeof_gmonhdr);
         C.u_int GMONVERSION; C.u_int profhz].
Proof. reflexivity. Qed.

Lemma mcleanup_unfold :
  forall (abi : Abi) fuel sysctl p ch,
    _mcleanup fuel sysctl p ch
    = let p' := moncontrol 0 p in
      let hdr := header_record p (reported_profhz sysctl) in
      if sizeof_ubuf <=? strlen hdr then Done (cleaned_with p ch)
      else
        let '(ch1, e) :=
          utrace (firstn (Z.to_nat (sizeof_ubuf - 1)) hdr) (strlen hdr) ch in
        if e =? -1 then Done (cleaned_with p ch1)
        else
          r <- kcount_records fuel p' (kcountsize p / sizeof_kcount)
                 sample_limit_of 0 ch1 ;;
          let '(ch2, ok) := r in
          if negb ok then Done (cleaned_with p ch2)
          else
            r <- arc_slots fuel p'
                   (Z.to_nat (C.int (fromssize p / sizeof_froms))) 0 ch2 ;;
            let '(ch3, ok) := r in
            if negb ok then Done (cleaned_with p ch3)
            else
              let '(ch4, _) :=
                utrace (firstn (Z.to_nat (sizeof_ubuf - 1)) (lit "footer"))
                  6 ch3 in
              Done (cleaned_with p ch4).
Proof.
  intros abi fuel sysctl p ch. rewrite header_record_eq. reflexivity.
Qed.

Lemma sample_limit_fits :
  forall abi : Abi,
    5 <= KTR_USER_MAXLEN < 2 ^ 64 - 1 ->
    KTR_USER_MAXLEN mod 5 <> 0 ->
    sample_limit_of = (KTR_USER_MAXLEN - 5) / 5 /\
    0 <= sample_limit_of /\
    6 + 5 * sample_limit_of <= KTR_USER_MAXLEN.
Proof.
  intros abi Hr Hm. unfold sample_limit_of.
  rewrite sizeof_ubuf_eq by lia. rewrite u_long_small by lia.
  replace (KTR_USER_MAXLEN + 1 - 6) with (KTR_USER_MAXLEN - 5) by lia.
  split; [reflexivity|].
  Z.to_euclidean_division_equations. lia.
Qed.

Lemma mcleanup_sound_grows :
  forall (abi : Abi) fuel sysctl p ch,
    6 <= KTR_USER_MAXLEN < 2 ^ 64 - 1 ->
    KTR_USER_MAXLEN mod 5 <> 0 ->
    0 <= kcountsize p < 2 ^ 64 ->
    sound (_mcleanup fuel sysctl p ch) /\
    forall c, _mcleanup fuel sysctl p ch = Done c -> grows ch (c_channel c).
Proof.
  intros abi fuel sysctl p ch Hr Hm Hk.
  assert (Hr' : 0 <= KTR_USER_MAXLEN < 2 ^ 64 - 1) by lia.
  pose proof (sizeof_ubuf_eq Hr') as Hsz.
  destruct (sample_limit_fits abi ltac:(lia) Hm) as (_ & HL0 & HL).
  rewrite mcleanup_unfold. cbv zeta.
  generalize (header_record p (reported_profhz sysctl)). intros hdr.
  destruct (sizeof_ubuf <=? strlen hdr) eqn:E.
  { split; [exact I|]. intros c [= <-]. apply grows_refl. }
  destruct (utrace _ (strlen hdr) ch) as [ch1 e1] eqn:E1.
  apply (utrace_grows Hr') in E1; [|bool_hyps; lia].
  destruct (e1 =? -1).
  { split; [exact I|]. now intros c [= <-]. }
  assert (HT : kcountsize p / sizeof_kcount < 2 ^ 63).
  { unfold sizeof_kcount. apply Z.div_lt_upper_bound; lia. }
  pose proof (kcount_records_sound Hr' fuel (moncontrol 0 p)
                (kcountsize p / sizeof_kcount) sample_limit_of 0 ch1
                HL0 ltac:(lia) ltac:(lia) HT) as S1.
  destruct (kcount_records _ _ _ _ _ _) as [[ch2 ok2]| | |] eqn:E2;
    try easy.
  apply (kcount_records_grows Hr') in E2; [|lia]. cbn [fst] in E2.
  cbn [bind]. destruct ok2; cbn [negb].
  2:{ split; [exact I|]. intros c [= <-]. now apply (grows_trans _ _ ch1). }
  pose proof (arc_slots_sound abi fuel (moncontrol 0 p)
                (Z.to_nat (C.int (fromssize p / sizeof_froms))) 0 ch2) as S2.
  destruct (arc_slots _ _ _ _ _) as [[ch3 ok3]| | |] eqn:E3; try easy.
  apply (arc_slots_grows Hr') in E3. cbn [fst] in E3.
  cbn [bind]. destruct ok3; cbn [negb].
  2:{ split; [exact I|]. intros c [= <-].
      apply (grows_trans _ _ ch1); [assumption|].
      now apply (grows_trans _ _ ch2). }
  destruct (utrace _ 6 ch3) as [ch4 e4] eqn:E4.
  apply (utrace_grows Hr') in E4; [|lia].
  split; [exact I|]. intros c [= <-].
  apply (grows_trans _ _ ch1); [assumption|].
  apply (grows_trans _ _ ch2); [assumption|].
  now apply (grows_trans _ _ ch3).
Qed.


Lemma utrace_full :
  forall (abi : Abi) buf len ch,
    room ch = 0%N -> utrace buf len ch = (ch, -1).
Proof. intros abi buf len ch H. unfold utrace. now rewrite H. Qed.

Lemma kcount_records_shape :
  forall (abi : Abi) fuel p T L i ch r,
    0 <= KTR_USER_MAXLEN < 2 ^ 64 - 1 ->
    0 <= L -> 6 + 5 * L < sizeof_ubuf ->
    0 <= i -> T < 2 ^ 63 ->
    kcount_records fuel p T L i ch = Done r ->
    exists groups,
      sent (fst r) = sent ch ++ map (histogram_record p) groups /\
      Forall (fun g => Z.of_nat (length g) <= L) groups.
Proof.
  intros abi. induction fuel as [|fuel IH];
    intros p T L i ch r Hr HL Hfit Hi HT H;
    cbn [kcount_records] in H; destruct (i <? T) eqn:E; cbn [negb] in H;
    try discriminate H;
    try (injection H as <-; exists []; cbn [map fst];
         now rewrite app_nil_r).
  apply Z.ltb_lt in E.
  unfold strlcpy in H. cbv zeta in H.
  change (strlen (lit "kcount") =? 6) with true in H.
  cbn [assert bind] in H.
  change (strlen (lit "kcount")) with 6 in H.
  pose proof (sizeof_ubuf_eq Hr) as Hsz.
  rewrite firstn_all2 in H
    by (change (length (lit "kcount")) with 6%nat; lia).
  destruct (kcount_records_step Hr p T L i HL Hfit (conj Hi E) HT)
    as (El & Hl & Es).
  rewrite El, Es in H. cbn [bind] in H.
  set (limit := if T - i <? L then T else i + L) in *.
  assert (Hn : Z.of_nat (length (zrange i (Z.to_nat (limit - i)))) <= L).
  { rewrite zrange_length. unfold limit.
    destruct (T - i <? L) eqn:E'; bool_hyps; lia. }
  clear Es.
  generalize dependent (zrange i (Z.to_nat (limit - i))). intros g H Hn.
  destruct (N.eq_dec (room ch) 0) as [Hz|Hz].
  - rewrite utrace_full in H by assumption.
    change (-1 =? -1) with true in H. injection H as <-.
    exists []. cbn [map fst]. now rewrite app_nil_r.
  - rewrite utrace_ok in H; [|assumption|reflexivity].
    change (0 =? -1) with false in H. cbv iota in H.
    apply IH in H; try assumption; [|lia].
    destruct H as (groups & Eg & Fg). exists (g :: groups).
    rewrite Eg. cbn [after sent map]. rewrite <- app_assoc.
    split; [reflexivity|now constructor].
Qed.

(** C8: with [sample_limit = (sizeof ubuf - 6) / 5], where
    [sizeof ubuf = KTR_USER_MAXLEN + 1], a record of [sample_limit]
    samples takes at most [KTR_USER_MAXLEN] bytes; the histogram loop
    fails none of its assertions ([off < sizeof ubuf] among them), every
    record it sends is the tag with at most [sample_limit] samples, of
    6 + 5 bytes per sample and within [KTR_USER_MAXLEN]; and [_mcleanup]
    as a whole fails no assertion and sends no record above the limit.
    The constant is a parameter here; the bound needs that it is not a
    multiple of 5, as OpenBSD's 2048 is not. *)
Theorem kcount_record_bounded :
  forall (abi : Abi) (fuel : nat) (sysctl : option clockinfo)
         (p : gmonparam) (ch : channel),
    6 <= KTR_USER_MAXLEN < 2 ^ 64 - 1 ->
    KTR_USER_MAXLEN mod 5 <> 0 ->
    0 <= kcountsize p < 2 ^ 64 ->
    let sample_total := kcountsize p / sizeof_kcount in
    let sample_limit := C.u_long (sizeof_ubuf - 6) / 5 in
    6 + 5 * sample_limit <= KTR_USER_MAXLEN /\
    sound (kcount_records fuel p sample_total sample_limit 0 ch) /\
    (forall r,
        kcount_records fuel p sample_total sample_limit 0 ch = Done r ->
        exists groups,
          sent (fst r) = sent ch ++ map (histogram_record p) groups /\
          Forall (fun g =>
                    Z.of_nat (length g) <= sample_limit /\
                    strlen (histogram_record p g)
                    = 6 + 5 * Z.of_nat (length g) /\
                    strlen (histogram_record p g) <= KTR_USER_MAXLEN)
                 groups) /\
    sound (_mcleanup fuel sysctl p ch) /\
    (forall c,
        _mcleanup fuel sysctl p ch = Done c ->
        exists l,
          sent (c_channel c) = sent ch ++ l /\
          Forall (fun r => strlen r <= KTR_USER_MAXLEN) l).
Proof.
  intros abi fuel sysctl p ch Hr Hm Hk sample_total sample_limit.
  assert (Hr' : 0 <= KTR_USER_MAXLEN < 2 ^ 64 - 1) by lia.
  pose proof (sizeof_ubuf_eq Hr') as Hsz.
  destruct (sample_limit_fits abi ltac:(lia) Hm) as (_ & HL0 & HL).
  fold sample_limit_of in sample_limit.
  assert (HT : sample_total < 2 ^ 63).
  { unfold sample_total, sizeof_kcount. apply Z.div_lt_upper_bound; lia. }
  split; [exact HL|].
  split; [apply kcount_records_sound; unfold sample_limit; lia|].
  split.
  - intros r H.
    apply kcount_records_shape in H; try assumption;
      try (unfold sample_limit; lia).
    destruct H as (groups & Eg & Fg). exists groups.
    split; [exact Eg|].
    apply Forall_impl with (2 := Fg). intros g Hg.
    rewrite histogram_record_length.
    unfold sample_limit in *. repeat split; lia.
  - destruct (mcleanup_sound_grows abi fuel sysctl p ch Hr Hm Hk) as [S G].
    split; [exact S|]. intros c Hc. exact (G c Hc).
Qed.

Lemma kcount_record_bounded_witness :
  (6 <= KTR_USER_MAXLEN (Abi := openbsd_lp64) < 2 ^ 64 - 1 /\
   KTR_USER_MAXLEN (Abi := openbsd_lp64) mod 5 <> 0 /\
   0 <= kcountsize small_session < 2 ^ 64)
  /\ 6 + 5 * (C.u_long (sizeof_ubuf (abi := openbsd_lp64) - 6) / 5)
     <= KTR_USER_MAXLEN (Abi := openbsd_lp64)
  /\ sound (_mcleanup (abi := openbsd_lp64) 8 None small_session
              (empty_channel 8))
  /\ (forall c,
         _mcleanup (abi := openbsd_lp64) 8 None small_session
           (empty_channel 8) = Done c ->
         exists l,
           sent (c_channel c) = sent (empty_channel 8) ++ l /\
           Forall (fun r => strlen r <= KTR_USER_MAXLEN (Abi := openbsd_lp64))
                  l).
Proof.
  assert (H1 : 6 <= KTR_USER_MAXLEN (Abi := openbsd_lp64) < 2 ^ 64 - 1)
    by (cbn; lia).
  assert (H2 : KTR_USER_MAXLEN (Abi := openbsd_lp64) mod 5 <> 0)
    by discriminate.
  assert (H3 : 0 <= kcountsize small_session < 2 ^ 64) by (cbn; lia).
  pose proof (kcount_record_bounded openbsd_lp64 8 None small_session
                (empty_channel 8) H1 H2 H3) as (A & _ & _ & B & C0).
  split; [now repeat split|]. split; [exact A|]. split; [exact B|exact C0].
Defined.

(** ** The header record *)






(** ** The whole record sequence *)

Lemma chain_moncontrol :
  forall p t l, chain p t l -> chain (moncontrol 0 p) t l.
Proof.
  intros p t l H. induction H; constructor; assumption.
Qed.

Lemma histogram_record_moncontrol :
  forall p js,
    histogram_record (moncontrol 0 p) js = histogram_record p js.
Proof. reflexivity. Qed.

Lemma arc_records_moncontrol :
  forall p slots chains,
    arc_records (moncontrol 0 p) slots chains = arc_records p slots chains.
Proof.
  intros p slots chains. unfold arc_records, rawarc_record, frompc_of.
  change (moncontrol 0 p) with (set_gstate GMON_PROF_OFF p).
  cbn [set_gstate lowpc hashfraction tos]. reflexivity.
Qed.

Section Whole.
Context {abi : Abi}.
Hypothesis maxlen_range : 68 <= KTR_USER_MAXLEN < 2 ^ 64 - 1.
Hypothesis maxlen_mod : KTR_USER_MAXLEN mod 5 <> 0.

Lemma sample_limit_positive :
  1 <= sample_limit_of /\ 6 + 5 * sample_limit_of < sizeof_ubuf.
Proof.
  destruct (sample_limit_fits abi ltac:(lia) maxlen_mod) as (E & H0 & H1).
  rewrite sizeof_ubuf_eq by lia. split; [|lia].
  rewrite E. apply Z.div_le_lower_bound; lia.
Qed.

(** With enough fuel and room on the channel, [_mcleanup] sends the
    header, the histogram records, the arc records of the slots below
    [endfrom], and the footer. *)
Lemma mcleanup_records :
  forall fuel sysctl p ch chains,
    0 <= kcountsize p < 2 ^ 64 ->
    let T := kcountsize p / sizeof_kcount in
    let endfrom := C.int (fromssize p / sizeof_froms) in
    let slots := zrange 0 (Z.to_nat endfrom) in
    let groups := sample_groups (Z.to_nat T) T sample_limit_of 0 in
    let records :=
      header_record p (reported_profhz sysctl)
      :: map (histogram_record p) groups
         ++ arc_records p slots chains ++ [lit "footer"] in
    Forall2 (fun i l => chain p (froms p i) l) slots chains ->
    (Z.to_nat T <= fuel)%nat ->
    Forall (fun l => (length l <= fuel)%nat) chains ->
    (N.of_nat (length records) <= room ch)%N ->
    _mcleanup fuel sysctl p ch = Done (cleaned_with p (after ch records)).
Proof.
  intros fuel sysctl p ch chains Hk T endfrom slots groups records
         Hchains Hfuel Hcf Hroom.
  assert (Hr' : 0 <= KTR_USER_MAXLEN < 2 ^ 64 - 1) by lia.
  assert (Hr57 : 57 <= KTR_USER_MAXLEN < 2 ^ 64 - 1) by lia.
  pose proof (sizeof_ubuf_eq Hr') as Hsz.
  destruct sample_limit_positive as [HL1 HLfit].
  assert (HT : 0 <= T < 2 ^ 63).
  { unfold T, sizeof_kcount. split; [apply Z.div_pos; lia|].
    apply Z.div_lt_upper_bound; lia. }
  assert (Hg : sample_groups fuel T sample_limit_of 0 = groups).
  { unfold groups. apply sample_groups_stable; try assumption; lia. }
  unfold records in Hroom. cbn [length] in Hroom.
  rewrite !length_app, length_map in Hroom. cbn [length] in Hroom.
  rewrite mcleanup_unfold. cbv zeta.
  pose proof (header_record_length abi p (reported_profhz sysctl)) as Hlen.
  unfold records. clear records.
  generalize dependent (header_record p (reported_profhz sysctl)).
  intros hdr Hlen.
  assert (E : (sizeof_ubuf <=? strlen hdr) = false) by (apply Z.leb_gt; lia).
  rewrite E, firstn_fits by lia.
  rewrite utrace_ok; [|lia|reflexivity].
  change (0 =? -1) with false. cbv iota.
  fold T.
  rewrite (kcount_records_spec Hr'); try lia.
  2:{ rewrite Hg. unfold after. cbn [room length]. lia. }
  rewrite Hg. cbn [bind negb]. rewrite after_app.
  fold endfrom. fold slots.
  rewrite (arc_slots_spec Hr57 _ fuel _ 0 chains).
  - cbn [bind negb]. rewrite after_app.
    rewrite firstn_fits by (change (strlen (lit "footer")) with 6; lia).
    rewrite utrace_ok.
    + rewrite after_app. cbn [app]. rewrite <- !app_assoc.
      rewrite arc_records_moncontrol.
      rewrite (map_ext _ _ (histogram_record_moncontrol p)).
      reflexivity.
    + unfold after. cbn [room]. rewrite !length_app, length_map.
      cbn [length]. rewrite arc_records_moncontrol. fold slots. lia.
    + reflexivity.
  - apply Forall2_impl with (2 := Hchains).
    intros i l Hc. now apply chain_moncontrol.
  - assumption.
  - unfold after. cbn [room]. rewrite length_app, length_map.
    cbn [length]. rewrite arc_records_moncontrol. fold slots. lia.
Qed.

End Whole.

(** ** monstartup *)

Lemma monstartup_started :
  forall (abi : Abi) notdef kernel l h p s,
    monstartup notdef kernel l h = Done (Started p s) ->
    HISTFRACTION <> 0 /\ HASHFRACTION <> 0 /\
    lowpc p = ROUNDDOWN l rounding_unit /\
    highpc p = ROUNDUP h rounding_unit /\
    textsize p = C.u_long (highpc p - lowpc p) /\
    kcountsize p = textsize p / HISTFRACTION /\
    hashfraction p = HASHFRACTION /\
    fromssize p = textsize p / HASHFRACTION /\
    kcountsize p <> 0 /\ fromssize p <> 0 /\
    gstate p = GMON_PROF_ON /\
    (if kcountsize p <? C.u_long (C.int (highpc p - lowpc p))
     then (if notdef
           then scale_staged (kcountsize p) (C.int (highpc p - lowpc p))
           else scale_float (kcountsize p) (C.int (highpc p - lowpc p)))
          = Some s
     else s = SCALE_1_TO_1).
Proof.
  intros abi notdef kernel l h p s H. unfold monstartup in H.
  fold rounding_unit in H.
  destruct (rounding_unit =? 0); [discriminate H|].
  destruct (HISTFRACTION =? 0) eqn:E1; [discriminate H|].
  destruct (HASHFRACTION =? 0) eqn:E2; [discriminate H|].
  cbv zeta in H. unfold mmap in H.
  set (lo := ROUNDDOWN l rounding_unit) in *.
  set (hi := ROUNDUP h rounding_unit) in *.
  set (ts := C.u_long (hi - lo)) in *.
  destruct (ts / HISTFRACTION =? 0) eqn:K1; [discriminate H|].
  cbn [negb andb] in H.
  destruct (kernel (ts / HISTFRACTION)); [|discriminate H].
  cbn [negb] in H.
  destruct (ts / HASHFRACTION =? 0) eqn:K2; [discriminate H|].
  cbn [negb andb] in H.
  destruct (kernel (ts / HASHFRACTION)); [|discriminate H].
  cbn [negb] in H.
  match type of H with
  | (if negb ?b then _ else _) = _ => destruct b; [|discriminate H]
  end.
  cbn [negb] in H.
  match type of H with
  | bind ?m _ = _ => destruct m as [v| | |] eqn:Es; try discriminate H
  end.
  cbn [bind] in H. injection H as <- <-.
  change (moncontrol 1 ?q) with (set_gstate GMON_PROF_ON q).
  cbn [set_gstate lowpc highpc textsize kcountsize hashfraction fromssize
       gstate].
  bool_hyps. repeat (split; [first [assumption|reflexivity]|]).
  fold ts.
  destruct (ts / HISTFRACTION <? C.u_long (C.int (hi - lo))).
  - destruct notdef;
      match type of Es with
      | defined ?o = _ => destruct o; [|discriminate Es]
      end; now injection Es as ->.
  - now injection Es.
Qed.

Lemma u_long_range : forall x, 0 <= C.u_long x < 2 ^ 64.
Proof. intros x. unfold C.u_long. apply Z.mod_pos_bound. lia. Qed.

Lemma u_long_divide :
  forall u x, (u | 2 ^ 64) -> (u | x) -> (u | C.u_long x).
Proof.
  intros u x H64 Hx. unfold C.u_long. rewrite Z.mod_eq by lia.
  apply Z.divide_sub_r; [assumption|]. now apply Z.divide_mul_l.
Qed.

Lemma rounddown_spec :
  forall x u,
    0 < u -> 0 <= x < 2 ^ 64 ->
    0 <= ROUNDDOWN x u <= x /\ (u | ROUNDDOWN x u).
Proof.
  intros x u Hu Hx. unfold ROUNDDOWN.
  pose proof (Z.mul_div_le x u Hu) as H1.
  assert (H0 : 0 <= x / u) by (apply Z.div_pos; lia).
  rewrite u_long_small by nia.
  split; [nia|]. now apply Z.divide_factor_r.
Qed.

Lemma roundup_spec :
  forall x u,
    0 < u -> (u | 2 ^ 64) -> 0 <= x < 2 ^ 64 ->
    0 <= ROUNDUP x u < 2 ^ 64 /\ (u | ROUNDUP x u) /\
    (x <= ROUNDUP x u \/ ROUNDUP x u = 0).
Proof.
  intros x u Hu H64 Hx. unfold ROUNDUP.
  assert (Hle : u <= 2 ^ 64) by (apply Z.divide_pos_le; [lia|assumption]).
  split; [apply u_long_range|]. split.
  { apply u_long_divide; [assumption|]. now apply Z.divide_factor_r. }
  destruct (Z_lt_le_dec (x + u - 1) (2 ^ 64)) as [Hs|Hw].
  - left.
    assert (Ez : C.u_long (C.u_long (x + u) - 1) = x + u - 1).
    { destruct (Z.eq_dec (x + u) (2 ^ 64)) as [E|E].
      - rewrite E. change (C.u_long (2 ^ 64)) with 0.
        change (C.u_long (0 - 1)) with (2 ^ 64 - 1). lia.
      - rewrite (u_long_small (x + u)) by lia. apply u_long_small. lia. }
    rewrite Ez.
    pose proof (Z.mul_div_le (x + u - 1) u Hu) as H1.
    pose proof (Z.mul_succ_div_gt (x + u - 1) u Hu) as H2.
    assert (H0 : 0 <= (x + u - 1) / u) by (apply Z.div_pos; lia).
    rewrite u_long_small by nia. nia.
  - right.
    assert (Ez : C.u_long (C.u_long (x + u) - 1) = x + u - 1 - 2 ^ 64).
    { assert (E1 : C.u_long (x + u) = x + u - 2 ^ 64).
      { unfold C.u_long.
        replace (x + u) with ((x + u - 2 ^ 64) + 1 * 2 ^ 64) at 1 by lia.
        rewrite Z.mod_add by lia. apply Z.mod_small. lia. }
      rewrite E1. rewrite u_long_small by lia. lia. }
    rewrite Ez. rewrite Z.div_small by lia. reflexivity.
Qed.

(** The bounds and sizes [monstartup] derives from [lowpc < highpc]. *)
Lemma text_layout :
  forall (abi : Abi) l h,
    0 < HISTFRACTION -> (rounding_unit | 2 ^ 64) ->
    0 <= l < h -> h < 2 ^ 64 ->
    let lo := ROUNDDOWN l rounding_unit in
    let hi := ROUNDUP h rounding_unit in
    let ts := C.u_long (hi - lo) in
    0 <= lo <= l /\ 0 <= hi < 2 ^ 64 /\ 0 <= ts < 2 ^ 64 /\
    lo + ts <= 2 ^ 64 /\ (rounding_unit | ts) /\
    (hi <> 0 -> ts = hi - lo).
Proof.
  intros abi l h HF H64 Hl Hh lo hi ts.
  assert (Hu : 0 < rounding_unit)
    by (unfold rounding_unit, sizeof_HISTCOUNTER; lia).
  destruct (rounddown_spec l rounding_unit Hu ltac:(lia)) as [L1 L2].
  destruct (roundup_spec h rounding_unit Hu H64 ltac:(lia))
    as (U1 & U2 & U3).
  fold lo in L1, L2. fold hi in U1, U2, U3.
  pose proof (u_long_range (hi - lo)) as T1. fold ts in T1.
  assert (T2 : (rounding_unit | ts)).
  { apply u_long_divide; [assumption|]. now apply Z.divide_sub_r. }
  repeat (split; [lia || assumption|]).
  destruct U3 as [U3|U3].
  - assert (E : ts = hi - lo) by (apply u_long_small; lia).
    split; [lia|]. split; [assumption|]. intros _. exact E.
  - split; [|split; [assumption|lia]].
    unfold ts. rewrite U3. unfold C.u_long.
    destruct (Z.eq_dec lo 0) as [->|Hn]; [cbn; lia|].
    replace (0 - lo) with ((2 ^ 64 - lo) + (-1) * 2 ^ 64) by lia.
    rewrite Z.mod_add by lia. rewrite Z.mod_small by lia. lia.
Qed.

Lemma histogram_not_empty :
  forall (abi : Abi) ts,
    0 < HISTFRACTION -> (rounding_unit | ts) -> 0 <= ts ->
    ts / HISTFRACTION <> 0 ->
    1 <= ts / HISTFRACTION / sizeof_kcount.
Proof.
  intros abi ts HF [k Hk] Hts Hn. unfold rounding_unit in Hk.
  unfold sizeof_HISTCOUNTER in Hk. unfold sizeof_kcount.
  assert (E : ts / HISTFRACTION = k * 2).
  { rewrite Hk. replace (k * (HISTFRACTION * 2)) with (k * 2 * HISTFRACTION)
      by lia. apply Z.div_mul. lia. }
  rewrite E in *. rewrite Z.div_mul by lia. nia.
Qed.

Lemma frompc_no_wrap :
  forall p i,
    0 < hashfraction p -> 0 <= lowpc p -> 0 <= textsize p ->
    lowpc p + textsize p <= 2 ^ 64 ->
    fromssize p = textsize p / hashfraction p ->
    0 <= i < fromssize p / sizeof_froms ->
    frompc_of p i = lowpc p + i * hashfraction p * sizeof_froms.
Proof.
  intros p i Hh Hlo Hts Hsum Hf Hi. unfold frompc_of, sizeof_froms in *.
  assert (H1 : 2 * (fromssize p / 2) <= fromssize p)
    by (apply Z.mul_div_le; lia).
  assert (H2 : hashfraction p * (textsize p / hashfraction p) <= textsize p)
    by (apply Z.mul_div_le; lia).
  rewrite <- Hf in H2.
  assert (H3 : 0 <= i * hashfraction p) by nia.
  assert (H4 : i * hashfraction p * 2 < textsize p) by nia.
  rewrite (u_long_small (i * hashfraction p)) by lia.
  rewrite (u_long_small (i * hashfraction p * 2)) by lia.
  apply u_long_small. lia.
Qed.

Lemma zrange_bounds :
  forall n j i, In i (zrange j n) -> j <= i < j + Z.of_nat n.
Proof.
  induction n as [|n IH]; intros j i H; cbn [zrange] in H; [easy|].
  destruct H as [<-|H]; [lia|]. apply IH in H. lia.
Qed.

(** C4, amended by the bound on the number of from-table slots: for a
    session that [monstartup] opened on [lowpc < highpc] and whose
    from-table has at most [INT_MAX] slots, with every chain ending at a
    0 link and no utrace call failing, [_mcleanup] returns (given the fuel
    for its loops) having sent exactly: the header record; one or more
    histogram records, none empty, whose samples taken in sequence are the
    histogram counters in array order; for each slot in ascending order
    the records of its chain, from the head along [link], with the caller
    address [lowpc + slot * hashfraction * sizeof( *froms)]; the footer
    record. *)
Theorem record_stream_shape :
  forall (abi : Abi) (notdef : bool) (kernel : Z -> bool)
         (lowpc0 highpc0 : Z) (p0 p : gmonparam) (s : Z)
         (sysctl : option clockinfo) (ch : channel)
         (chains : list (list Z)),
    68 <= KTR_USER_MAXLEN < 2 ^ 64 - 1 ->
    KTR_USER_MAXLEN mod 5 <> 0 ->
    0 < HISTFRACTION -> (rounding_unit | 2 ^ 64) -> 0 < HASHFRACTION ->
    0 <= lowpc0 < highpc0 -> highpc0 < 2 ^ 64 ->
    monstartup notdef kernel lowpc0 highpc0 = Done (Started p0 s) ->
    same_layout p0 p ->
    fromssize p / sizeof_froms <= C.INT_MAX ->
    let sample_total := kcountsize p / sizeof_kcount in
    let slots := zrange 0 (Z.to_nat (fromssize p / sizeof_froms)) in
    let groups :=
      sample_groups (Z.to_nat sample_total) sample_total sample_limit_of 0 in
    let records :=
      header_record p (reported_profhz sysctl)
      :: map (histogram_record p) groups
         ++ arc_records p slots chains ++ [lit "footer"] in
    Forall2 (fun i l => chain p (froms p i) l) slots chains ->
    (N.of_nat (length records) <= room ch)%N ->
    (groups <> [] /\
     Forall (fun g => g <> []) groups /\
     concat groups = zrange 0 (Z.to_nat sample_total))
    /\ Forall (fun i =>
                 frompc_of p i = lowpc p + i * hashfraction p * sizeof_froms)
              slots
    /\ exists fuel0,
         forall fuel,
           (fuel0 <= fuel)%nat ->
           _mcleanup fuel sysctl p ch
           = Done (cleaned_with p (after ch records)).
Proof.
  intros abi notdef kernel lowpc0 highpc0 p0 p s sysctl ch chains
         Hr Hm HF H64 HH Hl Hh Hstart Hsame Hint
         sample_total slots groups records Hchains Hroom.
  destruct (monstartup_started abi _ _ _ _ _ _ Hstart)
    as (_ & _ & Elo & Ehi & Ets & Ek & Eh & Ef & Kn & Fn & _).
  destruct Hsame as (Slo & Shi & Sts & Sh & Sk & Sf).
  destruct (text_layout abi lowpc0 highpc0 HF H64 Hl Hh)
    as (L1 & L2 & L3 & L4 & L5 & _).
  rewrite <- Elo, <- Ehi, <- Ets in *.
  pose proof (sample_limit_positive Hr Hm) as [HL1 _].
  assert (Hk : 0 <= kcountsize p < 2 ^ 64).
  { rewrite Sk, Ek. split; [apply Z.div_pos; lia|].
    apply Z.div_lt_upper_bound; nia. }
  assert (HT : 1 <= sample_total).
  { unfold sample_total. rewrite Sk, Ek.
    apply histogram_not_empty; try assumption; [lia|congruence]. }
  assert (Hf0 : 0 <= fromssize p / sizeof_froms).
  { rewrite Sf, Ef. apply Z.div_pos; [apply Z.div_pos; lia|].
    unfold sizeof_froms. lia. }
  destruct (sample_groups_cover (Z.to_nat sample_total) sample_total
              sample_limit_of 0 HL1 ltac:(lia) ltac:(lia))
    as (Gc & Gf & Gn).
  fold groups in Gc, Gf, Gn. rewrite Z.sub_0_r in Gc.
  split; [|split].
  - split; [apply Gn; lia|]. split; [|exact Gc].
    apply Forall_impl with (2 := Gf). intros g Hg ->. cbn in Hg. lia.
  - apply Forall_forall. intros i Hi. apply zrange_bounds in Hi.
    apply frompc_no_wrap.
    + rewrite Sh, Eh. exact HH.
    + rewrite Slo. lia.
    + rewrite Sts. lia.
    + rewrite Slo, Sts. lia.
    + rewrite Sf, Sts, Sh, Ef, Eh. reflexivity.
    + lia.
  - exists (Nat.max (Z.to_nat sample_total)
                    (list_max (map (@length Z) chains))).
    intros fuel Hfuel.
    assert (Eend : C.int (fromssize p / sizeof_froms)
                   = fromssize p / sizeof_froms).
    { unfold C.int. unfold C.INT_MAX in Hint.
      rewrite Z.mod_small by lia. lia. }
    pose proof (mcleanup_records Hr Hm fuel sysctl p ch chains Hk) as M.
    cbv zeta in M. rewrite Eend in M. apply M.
    + exact Hchains.
    + lia.
    + apply Forall_forall. intros l Hl0.
      assert (length l <= list_max (map (@length Z) chains))%nat; [|lia].
      pose proof (list_max_le (map (@length Z) chains)
                    (list_max (map (@length Z) chains))) as [Hmx _].
      specialize (Hmx (Nat.le_refl _)). rewrite Forall_forall in Hmx.
      apply Hmx. now apply in_map.
    + exact Hroom.
Qed.

Lemma record_stream_shape_witness :
  exists fuel0,
    forall fuel,
      (fuel0 <= fuel)%nat ->
      _mcleanup (abi := openbsd_lp64) fuel None small_session
        (empty_channel 8)
      = Done (cleaned_with small_session
                (after (empty_channel 8)
                   [lit "gmonhdr 1000 1008 2c 51879 0";
                    lit "kcount 000a beef";
                    lit "rawarc 1000 10 3";
                    lit "rawarc 1000 20 1";
                    lit "footer"])).
Proof.
  assert (Hc : Forall2 (fun i l => chain small_session (froms small_session i) l)
                 (zrange 0 (Z.to_nat (fromssize small_session / sizeof_froms)))
                 [[2; 1]; []]).
  { apply Forall2_cons; [|apply Forall2_cons; [|apply Forall2_nil]].
    - change (chain small_session 2 [2; 1]).
      apply chain_link; [discriminate|].
      change (chain small_session 1 [1]).
      apply chain_link; [discriminate|].
      change (chain small_session 0 []). apply chain_end.
    - change (chain small_session 0 []). apply chain_end. }
  destruct (record_stream_shape openbsd_lp64 false (fun _ => true)
              0x1001 0x1006 small_opened small_session 32768 None
              (empty_channel 8) [[2; 1]; []])
    as (_ & _ & fuel0 & F).
  - cbn; lia.
  - discriminate.
  - cbn; lia.
  - exists (2 ^ 62). reflexivity.
  - cbn; lia.
  - lia.
  - lia.
  - vm_compute. reflexivity.
  - repeat split.
  - cbn. discriminate.
  - exact Hc.
  - vm_compute. discriminate.
  - exists fuel0. intros fuel Hf. rewrite (F fuel Hf).
    vm_compute. reflexivity.
Defined.

Lemma sample_groups_length :
  forall n T L i,
    1 <= L ->
    (length (sample_groups n T L i) <= Z.to_nat (T - i))%nat.
Proof.
  induction n as [|n IH]; intros T L i HL; cbn [sample_groups length];
    [lia|].
  destruct (i <? T) eqn:E; cbn [length]; [|lia]. apply Z.ltb_lt in E.
  set (limit := if T - i <? L then T else i + L).
  assert (Hlim : i < limit <= T).
  { unfold limit. destruct (T - i <? L) eqn:E'; bool_hyps; lia. }
  specialize (IH T L limit HL). lia.
Qed.

(** C4, counterexample: [monstartup(0, 2^33)] succeeds on OpenBSD; in the
    session it opens, the first from-table slot holds an arc; with no
    utrace call failing [_mcleanup] sends its records up to the footer
    without a single rawarc record, because [endfrom], an [int], is
    negative. *)
Lemma huge_from_table_loses_arcs :
  (exists p0 s,
      monstartup (abi := openbsd_lp64) false (fun _ => true) 0 (2 ^ 33)
      = Done (Started p0 s) /\
      same_layout p0 huge_session)
  /\ chain huge_session (froms huge_session 0) [1]
  /\ C.int (fromssize huge_session / sizeof_froms) = - 2 ^ 31
  /\ exists fuel0,
       forall fuel,
         (fuel0 <= fuel)%nat ->
         exists c,
           _mcleanup (abi := openbsd_lp64) fuel None huge_session
             (empty_channel (2 ^ 32)) = Done c /\
           room (c_channel c) <> 0%N /\
           (exists before, sent (c_channel c) = before ++ [lit "footer"]) /\
           Forall (fun r => strip_prefix (lit "rawarc") r = None)
                  (sent (c_channel c)).
Proof.
  split; [|split; [|split]].
  - eexists. eexists. split; [vm_compute; reflexivity|].
    repeat split.
  - change (chain huge_session 1 [1]). apply chain_link; [discriminate|].
    change (chain huge_session 0 []). apply chain_end.
  - reflexivity.
  - assert (Hr : 68 <= KTR_USER_MAXLEN (Abi := openbsd_lp64) < 2 ^ 64 - 1)
      by (cbn; lia).
    assert (Hm : KTR_USER_MAXLEN (Abi := openbsd_lp64) mod 5 <> 0)
      by discriminate.
    assert (Hk : 0 <= kcountsize huge_session < 2 ^ 64) by (cbn; lia).
    pose proof (sample_limit_positive (abi := openbsd_lp64) Hr Hm)
      as [HL1 _].
    assert (ET : kcountsize huge_session / sizeof_kcount = 2 ^ 31)
      by reflexivity.
    exists (Z.to_nat (2 ^ 31)).
    intros fuel Hfuel.
    pose proof (mcleanup_records (abi := openbsd_lp64) Hr Hm fuel None
                  huge_session (empty_channel (2 ^ 32)) [] Hk) as M.
    cbv zeta in M. rewrite ET in M.
    change (zrange 0 (Z.to_nat (C.int (fromssize huge_session
                                        / sizeof_froms)))) with (@nil Z) in M.
    change (arc_records huge_session [] []) with (@nil cstring) in M.
    pose proof (sample_groups_length (Z.to_nat (2 ^ 31)) (2 ^ 31)
                  (sample_limit_of (abi := openbsd_lp64)) 0 HL1) as Hlen.
    assert (En : Z.of_nat (Z.to_nat (2 ^ 31 - 0)) = 2 ^ 31)
      by (rewrite Z2Nat.id; lia).
    generalize dependent (Z.to_nat (2 ^ 31 - 0)). intros n Hlen En.
    generalize dependent
      (sample_groups (Z.to_nat (2 ^ 31)) (2 ^ 31)
         (sample_limit_of (abi := openbsd_lp64)) 0).
    intros groups M Hlen.
    eexists. split; [|split; [|split]].
    + apply M.
      * constructor.
      * exact Hfuel.
      * constructor.
      * cbn [length]. rewrite !length_app, length_map.
        cbn [length empty_channel room]. lia.
    + cbn [cleaned_with c_channel after room empty_channel length].
      rewrite !length_app, length_map. cbn [length]. lia.
    + cbn [cleaned_with c_channel after sent empty_channel app].
      eexists (_ :: _). cbn [app]. reflexivity.
    + cbn [cleaned_with c_channel after sent empty_channel app].
      constructor; [vm_compute; reflexivity|].
      apply Forall_app. split.
      * apply Forall_forall. intros r Hr0. apply in_map_iff in Hr0.
        destruct Hr0 as (g & <- & _). reflexivity.
      * repeat constructor.
Qed.

(** ** Single precision: the quotient of a number by its double *)

Lemma digits2_pos_bounds :
  forall p,
    2 ^ (Zpos (digits2_pos p) - 1) <= Zpos p < 2 ^ Zpos (digits2_pos p).
Proof.
  induction p as [p IH|p IH|]; cbn [digits2_pos].
  - rewrite Pos2Z.inj_succ. replace (Z.succ (Zpos (digits2_pos p)) - 1)
      with (Z.succ (Zpos (digits2_pos p) - 1)) by lia.
    rewrite !Z.pow_succ_r by lia. lia.
  - rewrite Pos2Z.inj_succ. replace (Z.succ (Zpos (digits2_pos p)) - 1)
      with (Z.succ (Zpos (digits2_pos p) - 1)) by lia.
    rewrite !Z.pow_succ_r by lia. lia.
  - cbn. lia.
Qed.

Lemma digits2_pos_le :
  forall p n, 0 <= n -> Zpos p < 2 ^ n -> Zpos (digits2_pos p) <= n.
Proof.
  intros p n Hn H. pose proof (digits2_pos_bounds p) as [B _].
  destruct (Z_le_gt_dec (Zpos (digits2_pos p)) n) as [|G]; [assumption|].
  assert (2 ^ n <= 2 ^ (Zpos (digits2_pos p) - 1))
    by (apply Z.pow_le_mono_r; lia).
  lia.
Qed.

Lemma Zdigits2_nonneg : forall m, 0 <= Zdigits2 m.
Proof. intros [|p|p]; cbn; lia. Qed.

Lemma Zdigits2_le :
  forall m n, 0 <= n -> 0 <= m < 2 ^ n -> Zdigits2 m <= n.
Proof.
  intros [|p|p] n Hn H; cbn [Zdigits2]; [lia| |lia].
  now apply digits2_pos_le.
Qed.

Lemma iter_pos_nat :
  forall (A : Type) (f : A -> A) n x,
    iter_pos f n x = Nat.iter (Pos.to_nat n) f x.
Proof.
  intros A f. induction n as [n IH|n IH|]; intros x; cbn [iter_pos].
  - rewrite !IH, Pos2Nat.inj_xI.
    replace (S (2 * Pos.to_nat n))
      with (Pos.to_nat n + (Pos.to_nat n + 1))%nat by lia.
    rewrite !Nat.iter_add. reflexivity.
  - rewrite !IH, Pos2Nat.inj_xO.
    replace (2 * Pos.to_nat n)%nat with (Pos.to_nat n + Pos.to_nat n)%nat
      by lia.
    now rewrite Nat.iter_add.
  - reflexivity.
Qed.

Lemma shr_1_m :
  forall mrs, 0 <= shr_m mrs -> shr_m (shr_1 mrs) = shr_m mrs / 2.
Proof.
  intros [m r s] H. cbn [shr_m] in *. unfold shr_1.
  destruct m as [|[p|p|]|p]; cbn [shr_m]; try lia; try reflexivity.
  - rewrite Pos2Z.inj_xI.
    replace (2 * Zpos p + 1) with (1 + Zpos p * 2) by lia.
    rewrite Z.div_add by lia. reflexivity.
  - rewrite Pos2Z.inj_xO. rewrite Z.mul_comm. now rewrite Z.div_mul by lia.
Qed.

Lemma shr_iter_m :
  forall k mrs,
    0 <= shr_m mrs ->
    shr_m (Nat.iter k shr_1 mrs) = shr_m mrs / 2 ^ Z.of_nat k.
Proof.
  induction k as [|k IH]; intros mrs H.
  - cbn. now rewrite Z.div_1_r.
  - rewrite Nat.iter_succ, shr_1_m.
    + rewrite IH by assumption. rewrite Nat2Z.inj_succ, Z.pow_succ_r by lia.
      rewrite Z.div_div by lia. f_equal. lia.
    + rewrite IH by assumption. apply Z.div_pos; lia.
Qed.

Lemma shr_record_of_loc_m : forall m l, shr_m (shr_record_of_loc m l) = m.
Proof. intros m [|[]]; reflexivity. Qed.

Lemma shr_shifted_m :
  forall q mrs,
    0 <= shr_m mrs ->
    shr_m (iter_pos shr_1 q mrs) = shr_m mrs / 2 ^ Zpos q.
Proof.
  intros q mrs H. rewrite iter_pos_nat, shr_iter_m by assumption.
  now rewrite positive_nat_Z.
Qed.

(** Away from the subnormal range the exponent of the format follows the
    number of digits. *)
Lemma fexp_linear :
  forall x, -125 <= x -> fexp 24 128 x = x - 24.
Proof. intros x H. unfold fexp, emin. lia. Qed.

Lemma shr_fexp_raise :
  forall m e l,
    0 <= m -> -125 <= e ->
    shr_fexp 24 128 m (e + 1) l
    = (fst (shr_fexp 24 128 m e l), snd (shr_fexp 24 128 m e l) + 1).
Proof.
  intros m e l Hm He. unfold shr_fexp.
  pose proof (Zdigits2_nonneg m) as Hd.
  rewrite !fexp_linear by lia.
  replace (Zdigits2 m + (e + 1) - 24 - (e + 1))
    with (Zdigits2 m + e - 24 - e) by lia.
  unfold shr. destruct (Zdigits2 m + e - 24 - e); cbn [fst snd];
    f_equal; lia.
Qed.

Lemma shr_fexp_exponent :
  forall m e l n,
    0 <= n -> 0 <= m < 2 ^ n -> -125 <= e ->
    e <= snd (shr_fexp 24 128 m e l) <= e + Z.max 0 (n - 24).
Proof.
  intros m e l n Hn Hm He. unfold shr_fexp.
  pose proof (Zdigits2_nonneg m) as Hd.
  pose proof (Zdigits2_le m n Hn Hm) as Hd'.
  rewrite fexp_linear by lia. unfold shr.
  destruct (Zdigits2 m + e - 24 - e) eqn:E; cbn [snd]; lia.
Qed.

Lemma shr_fexp_m :
  forall m e l,
    0 <= m -> 0 <= shr_m (fst (shr_fexp 24 128 m e l)) <= m.
Proof.
  intros m e l Hm. unfold shr_fexp, shr.
  destruct (fexp 24 128 (Zdigits2 m + e) - e) as [|q|q]; cbn [fst];
    rewrite ?shr_shifted_m, shr_record_of_loc_m;
    rewrite ?shr_record_of_loc_m; try lia.
  split.
  - apply Z.div_pos; lia.
  - apply Z.div_le_upper_bound; [lia|].
    assert (1 <= 2 ^ Zpos q) by (apply (Z.pow_le_mono_r 2 0); lia). nia.
Qed.

Lemma shr_fexp_pos :
  forall m e l,
    0 < m -> -125 <= e -> 0 < shr_m (fst (shr_fexp 24 128 m e l)).
Proof.
  intros [|p|p] e l Hm He; try lia. unfold shr_fexp.
  cbn [Zdigits2]. rewrite fexp_linear by lia. unfold shr.
  pose proof (digits2_pos_bounds p) as [B _].
  destruct (Zpos (digits2_pos p) + e - 24 - e) as [|q|q] eqn:E; cbn [fst];
    rewrite ?shr_shifted_m, shr_record_of_loc_m;
    rewrite ?shr_record_of_loc_m; try lia.
  apply Z.div_str_pos. split; [lia|].
  assert (2 ^ Zpos q <= 2 ^ (Zpos (digits2_pos p) - 1))
    by (apply Z.pow_le_mono_r; lia).
  lia.
Qed.

Lemma round_nearest_even_bounds :
  forall m l, 0 <= m -> m <= round_nearest_even m l <= m + 1.
Proof.
  intros m [|[]] H; cbn [round_nearest_even]; try lia.
  destruct (Z.even m); lia.
Qed.

(** Rounding a number below 2^31 with a moderate exponent: the result is
    finite and not zero, and it follows the exponent. *)
Lemma binary_round_aux_finite :
  forall m e,
    0 < m < 2 ^ 31 -> -125 <= e <= 80 ->
    exists m' e',
      binary_round_aux 24 128 false m e loc_Exact = S754_finite false m' e' /\
      binary_round_aux 24 128 false m (e + 1) loc_Exact
      = S754_finite false m' (e' + 1).
Proof.
  intros m e Hm He. unfold binary_round_aux.
  rewrite shr_fexp_raise by lia.
  pose proof (shr_fexp_exponent m e loc_Exact 31 ltac:(lia) ltac:(lia)
                ltac:(lia)) as He1.
  pose proof (shr_fexp_m m e loc_Exact ltac:(lia)) as Hm1.
  pose proof (shr_fexp_pos m e loc_Exact ltac:(lia) ltac:(lia)) as Hp1.
  destruct (shr_fexp 24 128 m e loc_Exact) as [mrs1 e1].
  cbn [fst snd] in *.
  pose proof (round_nearest_even_bounds (shr_m mrs1)
                (loc_of_shr_record mrs1) ltac:(lia)) as Hr.
  set (m1 := round_nearest_even (shr_m mrs1) (loc_of_shr_record mrs1)) in *.
  rewrite shr_fexp_raise by lia.
  pose proof (shr_fexp_exponent m1 e1 loc_Exact 32 ltac:(lia) ltac:(lia)
                ltac:(lia)) as He2.
  pose proof (shr_fexp_pos m1 e1 loc_Exact ltac:(lia) ltac:(lia)) as Hp2.
  destruct (shr_fexp 24 128 m1 e1 loc_Exact) as [mrs2 e2].
  cbn [fst snd] in *.
  destruct (shr_m mrs2) as [|m2|m2]; try lia.
  exists m2, e2.
  replace (e2 <=? 128 - 24) with true by (symmetry; apply Z.leb_le; lia).
  replace (e2 + 1 <=? 128 - 24) with true
    by (symmetry; apply Z.leb_le; lia).
  split; reflexivity.
Qed.

Lemma iter_xO_value :
  forall n p, Zpos (Pos.iter xO p n) = Zpos p * 2 ^ Zpos n.
Proof.
  induction n as [|n IH] using Pos.peano_ind; intros p.
  - cbn. lia.
  - rewrite Pos.iter_succ, Pos2Z.inj_xO, IH, Pos2Z.inj_succ,
      Z.pow_succ_r by lia.
    lia.
Qed.

(** An integer below 2^31 converts to a finite, non-zero [float], and
    scaling it by two only raises the exponent. *)
Lemma binary_round_scaled :
  forall p,
    Zpos p < 2 ^ 31 ->
    exists m e,
      binary_round 24 128 false p 0 = S754_finite false m e /\
      binary_round 24 128 false p 1 = S754_finite false m (e + 1).
Proof.
  intros p Hp. unfold binary_round.
  pose proof (digits2_pos_bounds p) as [B1 B2].
  pose proof (digits2_pos_le p 31 ltac:(lia) Hp) as B3.
  rewrite !fexp_linear by lia. unfold shl_align.
  replace (Zpos (digits2_pos p) + 1 - 24 - 1)
    with (Zpos (digits2_pos p) + 0 - 24 - 0) by lia.
  destruct (Zpos (digits2_pos p) + 0 - 24 - 0) as [|q|q] eqn:E.
  - apply (binary_round_aux_finite (Zpos p) 0); lia.
  - apply (binary_round_aux_finite (Zpos p) 0); lia.
  - replace (Zpos (digits2_pos p) + 1 - 24)
      with (Zpos (digits2_pos p) + 0 - 24 + 1) by lia.
    apply binary_round_aux_finite; [|lia].
    rewrite iter_xO_value. split; [lia|].
    assert (2 ^ Zpos (digits2_pos p) * 2 ^ Zpos q = 2 ^ 24) as P.
    { rewrite <- Z.pow_add_r by lia. f_equal. lia. }
    assert (0 < 2 ^ Zpos q) by (apply Z.pow_pos_nonneg; lia).
    assert (Zpos p * 2 ^ Zpos q < 2 ^ 24) by nia.
    lia.
Qed.

(** The first shift of an even number with more digits than the
    precision drops its last bit without any loss. *)
Lemma shr_fexp_even :
  forall p,
    24 <= Zpos (digits2_pos p) ->
    shr_fexp 24 128 (Zpos p~0) 0 loc_Exact
    = shr_fexp 24 128 (Zpos p) 1 loc_Exact.
Proof.
  intros p Hd. unfold shr_fexp. cbn [Zdigits2 digits2_pos].
  rewrite Pos2Z.inj_succ, !fexp_linear by lia.
  cbn [shr_record_of_loc]. unfold shr.
  destruct (Zpos (digits2_pos p) + 1 - 24 - 1) as [|q|q] eqn:E; try lia.
  - replace (Z.succ (Zpos (digits2_pos p)) + 0 - 24 - 0) with 1 by lia.
    reflexivity.
  - replace (Z.succ (Zpos (digits2_pos p)) + 0 - 24 - 0)
      with (Zpos (Pos.succ q)) by lia.
    f_equal; [|lia].
    rewrite !iter_pos_nat, Pos2Nat.inj_succ, Nat.iter_succ_r. reflexivity.
Qed.

Lemma binary_round_even :
  forall p,
    binary_round 24 128 false p~0 0 = binary_round 24 128 false p 1.
Proof.
  intros p. unfold binary_round. cbn [digits2_pos].
  pose proof (Pos2Z.is_pos (digits2_pos p)) as Hd.
  rewrite Pos2Z.inj_succ, !fexp_linear by lia. unfold shl_align.
  destruct (Zpos (digits2_pos p) + 1 - 24 - 1) as [|q|q] eqn:E.
  - replace (Z.succ (Zpos (digits2_pos p)) + 0 - 24 - 0) with 1 by lia.
    unfold binary_round_aux. rewrite shr_fexp_even by lia. reflexivity.
  - replace (Z.succ (Zpos (digits2_pos p)) + 0 - 24 - 0)
      with (Zpos (Pos.succ q)) by lia.
    unfold binary_round_aux. rewrite shr_fexp_even by lia. reflexivity.
  - destruct (Z.succ (Zpos (digits2_pos p)) + 0 - 24 - 0) as [|q'|q'] eqn:E';
      try lia.
    + assert (q = 1%positive) as -> by lia.
      replace (Zpos (digits2_pos p) + 1 - 24) with 0 by lia. reflexivity.
    + assert (q = Pos.succ q') as -> by lia.
      rewrite Pos.iter_succ_r.
      replace (Zpos (digits2_pos p) + 1 - 24)
        with (Z.succ (Zpos (digits2_pos p)) + 0 - 24) by lia.
      reflexivity.
Qed.

(** [(float)(2 * k)] is [(float)k] with the exponent raised by one. *)
Lemma of_Z_double :
  forall k,
    0 < k < 2 ^ 30 ->
    exists m e,
      Float32.of_Z k = S754_finite false m e /\
      Float32.of_Z (2 * k) = S754_finite false m (e + 1).
Proof.
  intros [|p|p] Hk; try lia.
  change (2 * Zpos p) with (Zpos p~0).
  unfold Float32.of_Z, binary_normalize, Float32.prec, Float32.emax.
  rewrite binary_round_even. apply binary_round_scaled. lia.
Qed.

(** A finite number divided by its double is exactly one half. *)
Lemma div_by_twice :
  forall m e,
    Float32.div (S754_finite false m e) (S754_finite false m (e + 1))
    = one_half.
Proof.
  intros m e.
  unfold Float32.div, SFdiv, SFdiv_core_binary, Float32.prec, Float32.emax.
  cbn [Zdigits2 xorb].
  replace (Zpos (digits2_pos m) + e - (Zpos (digits2_pos m) + (e + 1)))
    with (-1) by lia.
  replace (e - (e + 1)) with (-1) by lia.
  change (Z.min (fexp 24 128 (-1)) (-1)) with (-25).
  change (-1 - -25) with 24. cbv zeta. cbv iota.
  change (IntDef.Z.shiftl (Zpos m) 24) with (Z.shiftl (Zpos m) 24).
  rewrite Z.shiftl_mul_pow2 by lia.
  change (IntDef.Z.div_eucl (Zpos m * 2 ^ 24) (Zpos m))
    with (Z.div_eucl (Zpos m * 2 ^ 24) (Zpos m)).
  assert (Z.div_eucl (Zpos m * 2 ^ 24) (Zpos m) = (2 ^ 24, 0)) as ->.
  { pose proof (Z.div_mul (2 ^ 24) (Zpos m) ltac:(lia)) as Q.
    pose proof (Z.mod_mul (2 ^ 24) (Zpos m) ltac:(lia)) as R.
    rewrite (Z.mul_comm (2 ^ 24)) in Q, R.
    unfold Z.div in Q. unfold Z.modulo in R.
    destruct (Z.div_eucl (Zpos m * 2 ^ 24) (Zpos m)) as [q r].
    now subst. }
  unfold new_location, new_location_even, new_location_odd.
  change (0 =? 0) with true. cbv iota.
  destruct (Z.even (Zpos m)); reflexivity.
Qed.

(** The scale of the default build when the histogram is half the text:
    [((float)k / (2 * k)) * 65536] is 32768 whatever [k]. *)
Lemma scale_float_half :
  forall k, 0 < k < 2 ^ 30 -> scale_float k (2 * k) = Some 32768.
Proof.
  intros k Hk. unfold scale_float.
  destruct (of_Z_double k Hk) as (m & e & -> & ->).
  rewrite div_by_twice. reflexivity.
Qed.

(** ** The scale of [monstartup] *)

Lemma int_small : forall x, - 2 ^ 31 <= x < 2 ^ 31 -> C.int x = x.
Proof. intros x H. unfold C.int. rewrite Z.mod_small by lia. lia. Qed.

Lemma int_of_u_long : forall x, C.int (C.u_long x) = C.int x.
Proof.
  intros x. unfold C.int, C.u_long. f_equal.
  rewrite (Z.mod_eq x (2 ^ 64)) by lia.
  replace (x - 2 ^ 64 * (x / 2 ^ 64) + 2 ^ 31)
    with (x + 2 ^ 31 + (- (2 ^ 32 * (x / 2 ^ 64))) * 2 ^ 32) by lia.
  now rewrite Z.mod_add by lia.
Qed.

Ltac div_facts a b :=
  pose proof (Z.div_mod a b ltac:(lia));
  pose proof (Z.mod_pos_bound a b ltac:(lia)).

(** The bands that the staging goes through, for a histogram smaller than
    a text of less than 2^31 bytes. *)
Lemma staging_bands :
  forall t k,
    0 < k < t -> t < 2 ^ 31 ->
    1 <= t / k <= t /\
    (t / k < 0x100 ->
     256 <= Z.shiftl t 8 / k < 65536 /\ Z.shiftl t 8 = t * 256 /\
     (0x800000 <= t ->
      0 < Z.shiftr k 8 /\ 256 <= t / Z.shiftr k 8 <= 0x1000000)).
Proof.
  intros t k Hk Ht.
  div_facts t k.
  assert (Q1 : 1 <= t / k) by nia.
  assert (Q2 : t / k <= t) by nia.
  split; [lia|]. intros Hq.
  rewrite Z.shiftl_mul_pow2 by lia. change (2 ^ 8) with 256.
  assert (Hlt : t < 256 * k) by nia.
  div_facts (t * 256) k.
  split; [nia|]. split; [reflexivity|]. intros Hbig.
  rewrite Z.shiftr_div_pow2 by lia. change (2 ^ 8) with 256.
  div_facts k 256.
  assert (A : 128 <= k / 256) by nia.
  split; [lia|].
  div_facts t (k / 256).
  nia.
Qed.

Lemma scale_staged_three_band :
  forall t k,
    0 < k < t -> t < 2 ^ 31 ->
    scale_staged k t = Some (three_band_scale t k).
Proof.
  intros t k Hk Ht.
  destruct (staging_bands t k Hk Ht) as [Q B].
  unfold scale_staged, three_band_scale, udiv.
  rewrite (u_long_small t) by lia.
  replace (k =? 0) with false by (symmetry; apply Z.eqb_neq; lia).
  rewrite (int_small (t / k)) by lia. cbv zeta.
  destruct (65536 <=? t / k); [reflexivity|].
  destruct (256 <=? t / k) eqn:E2; [reflexivity|].
  apply Z.leb_gt in E2. destruct (B E2) as (B1 & B2 & B3).
  destruct (8388608 <=? t) eqn:E3.
  - apply Z.leb_le in E3. destruct (B3 E3) as (B4 & B5).
    replace (Z.shiftr k 8 =? 0) with false
      by (symmetry; apply Z.eqb_neq; lia).
    replace (t / Z.shiftr k 8 =? 0) with false
      by (symmetry; apply Z.eqb_neq; lia).
    rewrite int_small; [reflexivity|].
    generalize dependent (t / Z.shiftr k 8). intros d Hd.
    div_facts 16777216 d. nia.
  - apply Z.leb_gt in E3.
    replace (t <? 0) with false by (symmetry; apply Z.ltb_ge; lia).
    replace (C.INT_MAX <? Z.shiftl t 8) with false
      by (symmetry; apply Z.ltb_ge; unfold C.INT_MAX; lia).
    cbn [orb]. rewrite u_long_small by lia.
    replace (Z.shiftl t 8 / k =? 0) with false
      by (symmetry; apply Z.eqb_neq; lia).
    rewrite int_small; [reflexivity|].
    generalize dependent (Z.shiftl t 8 / k). intros d Hd.
    div_facts 16777216 d. nia.
Qed.

Lemma three_band_range :
  forall t k,
    0 < k < t -> t < 2 ^ 31 -> 0 < three_band_scale t k <= 65536.
Proof.
  intros t k Hk Ht.
  destruct (staging_bands t k Hk Ht) as [Q B].
  unfold three_band_scale. cbv zeta.
  destruct (65536 <=? t / k) eqn:E1; [lia|]. apply Z.leb_gt in E1.
  destruct (256 <=? t / k) eqn:E2.
  { apply Z.leb_le in E2. generalize dependent (t / k). intros q Hq1 Hq2 Hq3.
    div_facts 65536 q. nia. }
  apply Z.leb_gt in E2. destruct (B E2) as (B1 & B2 & B3).
  destruct (8388608 <=? t) eqn:E3.
  - apply Z.leb_le in E3. destruct (B3 E3) as (B4 & B5).
    generalize dependent (t / Z.shiftr k 8). intros d Hd.
    div_facts 16777216 d. nia.
  - generalize dependent (Z.shiftl t 8 / k). intros d Hd.
    div_facts 16777216 d. nia.
Qed.

Lemma three_band_half :
  forall k, 0 < k < 2 ^ 30 -> three_band_scale (2 * k) k = 32768.
Proof.
  intros k Hk. unfold three_band_scale. cbv zeta.
  rewrite Z.div_mul by lia.
  change (65536 <=? 2) with false. change (256 <=? 2) with false. cbv iota.
  destruct (8388608 <=? 2 * k) eqn:E.
  - apply Z.leb_le in E. rewrite Z.shiftr_div_pow2 by lia.
    change (2 ^ 8) with 256. div_facts k 256.
    assert (A : 512 <= k / 256) by nia.
    assert (D : 2 * k / (k / 256) = 512).
    { symmetry. apply (Z.div_unique_pos _ _ _ (2 * k - 512 * (k / 256)));
        nia. }
    rewrite D. reflexivity.
  - rewrite Z.shiftl_mul_pow2 by lia. change (2 ^ 8) with 256.
    replace (2 * k * 256) with (512 * k) by lia.
    rewrite Z.div_mul by lia. reflexivity.
Qed.

(** What a successful [monstartup] over a text of less than 2^31 bytes
    leaves in [s_scale]: the build that avoids floating point (it has
    [notdef] defined) runs the staging, the default build evaluates the
    [float] expression, which is 32768 for the [HISTFRACTION] of two. *)
Lemma started_scale :
  forall (abi : Abi) notdef kernel l h p s,
    0 < HISTFRACTION ->
    (notdef = false -> HISTFRACTION = 2) ->
    monstartup notdef kernel l h = Done (Started p s) ->
    textsize p < 2 ^ 31 ->
    0 < kcountsize p <= textsize p /\
    (kcountsize p < textsize p ->
     (if notdef then scale_staged (kcountsize p) (textsize p)
      else scale_float (kcountsize p) (textsize p)) = Some s /\
     s = three_band_scale (textsize p) (kcountsize p)) /\
    (kcountsize p = textsize p -> s = SCALE_1_TO_1).
Proof.
  intros abi notdef kernel l h p s HF Hn H Ht.
  destruct (monstartup_started abi notdef kernel l h p s H)
    as (_ & _ & Elo & Ehi & Ets & Ek & _ & _ & Hk & _ & _ & Hs).
  pose proof (u_long_range (highpc p - lowpc p)) as R. rewrite <- Ets in R.
  rewrite <- int_of_u_long, <- Ets in Hs.
  rewrite (int_small (textsize p)), (u_long_small (textsize p)) in Hs
    by lia.
  assert (K0 : 0 <= kcountsize p) by (rewrite Ek; apply Z.div_pos; lia).
  assert (K1 : kcountsize p <= textsize p).
  { rewrite Ek. apply Z.div_le_upper_bound; [lia|]. nia. }
  split; [lia|]. split.
  - intros Hlt.
    replace (kcountsize p <? textsize p) with true in Hs
      by (symmetry; apply Z.ltb_lt; lia).
    split; [exact Hs|].
    destruct notdef.
    + rewrite scale_staged_three_band in Hs by lia. now injection Hs.
    + specialize (Hn eq_refl).
      assert (D : (4 | textsize p)).
      { rewrite Ets, Elo, Ehi. unfold rounding_unit, sizeof_HISTCOUNTER.
        rewrite Hn. change (2 * 2) with 4.
        assert (D64 : (4 | 2 ^ 64)) by (exists (2 ^ 62); reflexivity).
        apply u_long_divide; [exact D64|]. apply Z.divide_sub_r.
        - unfold ROUNDUP. apply u_long_divide; [exact D64|].
          apply Z.divide_factor_r.
        - unfold ROUNDDOWN. apply u_long_divide; [exact D64|].
          apply Z.divide_factor_r. }
      destruct D as [j Ej].
      assert (E2 : textsize p = 2 * kcountsize p).
      { rewrite Ek, Hn, Ej. replace (j * 4) with (j * 2 * 2) by lia.
        rewrite Z.div_mul by lia. lia. }
      rewrite E2 in Hs |- *.
      rewrite scale_float_half in Hs by lia.
      rewrite three_band_half by lia. now injection Hs.
  - intros Heq.
    replace (kcountsize p <? textsize p) with false in Hs
      by (symmetry; apply Z.ltb_ge; lia).
    exact Hs.
Qed.

(** C5, as the code has it: when the histogram is smaller than a text of
    less than 2^31 bytes, the scale that [monstartup] derives is the value
    of the three-band staging. The staging itself runs only in the build
    that defines [notdef]; the default build evaluates
    [((float)kcountsize / o) * 65536] in single precision, which gives the
    same value for the [HISTFRACTION] of two. *)
Theorem scale_is_three_band :
  forall (abi : Abi) notdef kernel l h p s,
    0 < HISTFRACTION ->
    (notdef = false -> HISTFRACTION = 2) ->
    monstartup notdef kernel l h = Done (Started p s) ->
    textsize p < 2 ^ 31 ->
    kcountsize p < textsize p ->
    s = three_band_scale (textsize p) (kcountsize p) /\
    (notdef = true -> scale_staged (kcountsize p) (textsize p) = Some s) /\
    (notdef = false -> scale_float (kcountsize p) (textsize p) = Some s).
Proof.
  intros abi notdef kernel l h p s HF Hn H Ht Hlt.
  destruct (started_scale abi notdef kernel l h p s HF Hn H Ht)
    as (_ & S & _).
  destruct (S Hlt) as [S1 S2].
  split; [exact S2|]. split; intros ->; exact S1.
Qed.

Lemma scale_is_three_band_witness :
  (0 < HISTFRACTION (Abi := openbsd_lp64) /\
   monstartup (abi := openbsd_lp64) false (fun _ => true) 0x1001 0x1006
   = Done (Started small_opened 32768) /\
   textsize small_opened < 2 ^ 31 /\
   kcountsize small_opened < textsize small_opened)
  /\ 32768 = three_band_scale (textsize small_opened)
                              (kcountsize small_opened)
  /\ scale_float (kcountsize small_opened) (textsize small_opened)
     = Some 32768.
Proof.
  assert (H1 : 0 < HISTFRACTION (Abi := openbsd_lp64)) by (cbn; lia).
  assert (H2 : monstartup (abi := openbsd_lp64) false (fun _ => true)
                 0x1001 0x1006 = Done (Started small_opened 32768))
    by (vm_compute; reflexivity).
  assert (H3 : textsize small_opened < 2 ^ 31) by (vm_compute; reflexivity).
  assert (H4 : kcountsize small_opened < textsize small_opened)
    by (vm_compute; reflexivity).
  pose proof (scale_is_three_band openbsd_lp64 false (fun _ => true)
                0x1001 0x1006 small_opened 32768 H1 (fun _ => eq_refl)
                H2 H3 H4) as (A & _ & B).
  split; [now repeat split|]. split; [exact A|exact (B eq_refl)].
Defined.

(** Over the text [0, 2^31) the [int] that holds the text size wraps to
    -2^31: the default build leaves -32768 in [s_scale] where the staging
    over the sizes gives 32768, and in the build that defines [notdef]
    the staging shifts a negative [int]. *)
Lemma scale_differs_from_three_band :
  monstartup (abi := openbsd_lp64) false (fun _ => true) 0 (2 ^ 31)
  = Done (Started opened_2GiB (- 32768))
  /\ kcountsize opened_2GiB < textsize opened_2GiB
  /\ three_band_scale (textsize opened_2GiB) (kcountsize opened_2GiB)
     = 32768
  /\ monstartup (abi := openbsd_lp64) true (fun _ => true) 0 (2 ^ 31)
     = Undefined.
Proof.
  repeat split; vm_compute; reflexivity.
Qed.

(** C6, as the code has it: a successful [monstartup] leaves a histogram
    and a from-table no larger than the text, whose size is taken between
    the bounds rounded outwards; and when that size is below 2^31, so
    that it fits the [int] the scale is computed from, [s_scale] lies in
    (0, 65536]. *)
Theorem monstartup_sizes_and_scale :
  forall (abi : Abi) notdef kernel l h p s,
    0 < HISTFRACTION -> 0 < HASHFRACTION ->
    (notdef = false -> HISTFRACTION = 2) ->
    monstartup notdef kernel l h = Done (Started p s) ->
    lowpc p = ROUNDDOWN l rounding_unit /\
    highpc p = ROUNDUP h rounding_unit /\
    textsize p = C.u_long (highpc p - lowpc p) /\
    kcountsize p <= textsize p /\
    fromssize p <= textsize p /\
    (textsize p < 2 ^ 31 -> 0 < s <= 65536).
Proof.
  intros abi notdef kernel l h p s HF HH Hn H.
  destruct (monstartup_started abi notdef kernel l h p s H)
    as (_ & _ & Elo & Ehi & Ets & Ek & _ & Ef & _).
  pose proof (u_long_range (highpc p - lowpc p)) as R. rewrite <- Ets in R.
  repeat (split; [assumption|]).
  split; [|split].
  - rewrite Ek. apply Z.div_le_upper_bound; [lia|]. nia.
  - rewrite Ef. apply Z.div_le_upper_bound; [lia|]. nia.
  - intros Ht.
    destruct (started_scale abi notdef kernel l h p s HF Hn H Ht)
      as (K & S & S').
    destruct (Z_lt_le_dec (kcountsize p) (textsize p)) as [Hlt|Hge].
    + destruct (S Hlt) as [_ ->]. apply three_band_range; lia.
    + rewrite S' by lia. unfold SCALE_1_TO_1. lia.
Qed.

Lemma monstartup_sizes_and_scale_witness :
  (0 < HISTFRACTION (Abi := openbsd_lp64) /\
   0 < HASHFRACTION (Abi := openbsd_lp64) /\
   monstartup (abi := openbsd_lp64) false (fun _ => true) 0x1001 0x1006
   = Done (Started small_opened 32768))
  /\ lowpc small_opened = 0x1000 /\ highpc small_opened = 0x1008
  /\ kcountsize small_opened <= textsize small_opened
  /\ fromssize small_opened <= textsize small_opened
  /\ 0 < 32768 <= 65536.
Proof.
  assert (H1 : 0 < HISTFRACTION (Abi := openbsd_lp64)) by (cbn; lia).
  assert (H2 : 0 < HASHFRACTION (Abi := openbsd_lp64)) by (cbn; lia).
  assert (H3 : monstartup (abi := openbsd_lp64) false (fun _ => true)
                 0x1001 0x1006 = Done (Started small_opened 32768))
    by (vm_compute; reflexivity).
  pose proof (monstartup_sizes_and_scale openbsd_lp64 false (fun _ => true)
                0x1001 0x1006 small_opened 32768 H1 H2 (fun _ => eq_refl)
                H3) as (A & B & _ & D & E & F).
  split; [now repeat split|].
  split; [exact A|]. split; [exact B|]. split; [exact D|].
  split; [exact E|]. apply F. vm_compute. reflexivity.
Defined.

(** Over the text [0, 2^31) the default build leaves a negative
    [s_scale]: the [int] that holds the text size is -2^31 there. *)
Lemma scale_out_of_range :
  monstartup (abi := openbsd_lp64) false (fun _ => true) 0 (2 ^ 31)
  = Done (Started opened_2GiB (- 32768))
  /\ kcountsize opened_2GiB = 2 ^ 30
  /\ textsize opened_2GiB = 2 ^ 31
  /\ C.int (highpc opened_2GiB - lowpc opened_2GiB) = - 2 ^ 31.
Proof.
  repeat split; vm_compute; reflexivity.
Qed.
